(** * PyMPA template matching: the detection kernel of [pympa39mac.py]

    A shallow embedding of the numerical kernel of the script
    (cross-correlation, stacking of the correlation traces, validation of a
    trigger on the single channels, rejection of magnitude outliers) and of
    the fragments of its main loop that call them.

    Numbers.  The script computes in IEEE double precision.  Here the
    arithmetic is exact: samples are real numbers where the code takes a
    standard deviation (a square root), and rational numbers, which compute,
    where it only adds, divides, compares and sorts.  The special values a
    NumPy reduction or a division produces on finite input (the mean of an
    empty array, a division by zero) are kept as explicit values of [xnum].
    Python integers are [Z]; a Python exception is the [Raise] outcome of
    [result]. *)

From Stdlib Require Import String Ascii.
From Stdlib Require Import List ZArith QArith Qround Qabs Qreduction.
From Stdlib Require Import Reals Lra Lia Psatz Bool.
Import ListNotations.

Close Scope Q_scope.
Close Scope R_scope.
Close Scope string_scope.

(** ** Python outcomes *)

Module Py.

Inductive exn : Type :=
| ValueError
| ZeroDivisionError
| IndexError.

Inductive result (A : Type) : Type :=
| Ok (a : A)
| Raise (e : exn).

Arguments Ok {A} a.
Arguments Raise {A} e.

Definition bind {A B : Type} (c : result A) (k : A -> result B) : result B :=
  match c with
  | Ok a => k a
  | Raise e => Raise e
  end.

(** [for x in l: body] with a body that may raise and threads a state. *)
Fixpoint for_each {A S : Type} (body : S -> A -> result S) (l : list A) (s : S)
  : result S :=
  match l with
  | [] => Ok s
  | a :: l' => bind (body s a) (for_each body l')
  end.

(** [enumerate(l)] *)
Definition enumerate {A : Type} (l : list A) : list (nat * A) :=
  combine (seq 0 (length l)) l.

(** [len(l)] *)
Definition len {A : Type} (l : list A) : Z := Z.of_nat (length l).

(** The index a slice bound denotes in a sequence of [n] elements: a
    negative bound counts from the end, and the outcome is clipped to
    [0 .. n]. *)
Definition slice_index (n i : Z) : Z :=
  if (i <? 0)%Z then Z.max 0 (n + i) else Z.min i n.

(** [l[a:b]] *)
Definition slice {A : Type} (l : list A) (a b : Z) : list A :=
  let start := slice_index (len l) a in
  let stop := slice_index (len l) b in
  firstn (Z.to_nat (stop - start)) (skipn (Z.to_nat start) l).

End Py.

Export Py.

Declare Scope py_scope.
Delimit Scope py_scope with py.
Notation "x <- c ;; k" := (Py.bind c (fun x => k))
  (at level 61, c at next level, right associativity) : py_scope.
Open Scope py_scope.

(** ** Values of a double under exact arithmetic *)

Definition Reqb (a b : R) : bool := if Req_dec_T a b then true else false.
Definition Rltb (a b : R) : bool := if Rlt_dec a b then true else false.
Definition Rleb (a b : R) : bool := if Rle_dec a b then true else false.
Definition Rgeb (a b : R) : bool := if Rge_dec a b then true else false.

Inductive xnum : Type :=
| Num (r : R)
| NaN
| PInf
| NInf.

Definition xinf (negative : bool) : xnum := if negative then NInf else PInf.

Definition xmul (a b : xnum) : xnum :=
  match a, b with
  | Num r, Num s => Num (r * s)
  | NaN, _ | _, NaN => NaN
  | Num r, PInf | PInf, Num r => if Reqb r 0 then NaN else xinf (Rltb r 0)
  | Num r, NInf | NInf, Num r => if Reqb r 0 then NaN else xinf (negb (Rltb r 0))
  | PInf, PInf | NInf, NInf => PInf
  | PInf, NInf | NInf, PInf => NInf
  end.

(** Division of doubles, NumPy flavour: no exception, a zero divisor gives
    an infinity or, under a zero dividend, NaN.  Zeros carry no sign here. *)
Definition xdiv (a b : xnum) : xnum :=
  match a, b with
  | Num r, Num s =>
      if Reqb s 0 then (if Reqb r 0 then NaN else xinf (Rltb r 0))
      else Num (r / s)
  | NaN, _ | _, NaN => NaN
  | Num _, PInf | Num _, NInf => Num 0
  | PInf, Num s => xinf (Rltb s 0)
  | NInf, Num s => xinf (negb (Rltb s 0))
  | _, _ => NaN
  end.

(** [a == 0] on a double *)
Definition xis_zero (a : xnum) : bool :=
  match a with
  | Num r => Reqb r 0
  | _ => false
  end.

(** ** The bottleneck reductions, on arrays of finite samples

    On finite samples [bn.nansum], [bn.nanmean] and [bn.nanstd] are the
    plain sum, mean and (population) standard deviation; mean and standard
    deviation of an empty array are NaN. *)

Module Bn.

Definition sum (l : list R) : R := fold_right Rplus 0%R l.

Definition mean (l : list R) : R := (sum l / INR (length l))%R.

Definition centered (l : list R) : list R :=
  map (fun v => (v - mean l)%R) l.

Definition var (l : list R) : R :=
  mean (map (fun v => (v * v)%R) (centered l)).

Definition std (l : list R) : R := sqrt (var l).

Definition nansum (l : list R) : xnum := Num (sum l).

Definition nanmean (l : list R) : xnum :=
  match l with
  | [] => NaN
  | _ => Num (mean l)
  end.

Definition nanstd (l : list R) : xnum :=
  match l with
  | [] => NaN
  | _ => Num (std l)
  end.

End Bn.

(** ** [rolling_window] and [xcorr] *)

(** Row [i] of the strided view: [a[i : i + window]]. *)
Definition window_at (a : list R) (window i : nat) : list R :=
  firstn window (skipn i a).

(** [rolling_window(a, window)].  The view has
    [len(a) - window + 1] rows; [as_strided] refuses a negative dimension. *)
Definition rolling_window (a : list R) (window : nat) : result (list (list R)) :=
  let rows := (len a - Z.of_nat window + 1)%Z in
  if (rows <? 0)%Z then Raise ValueError
  else Ok (map (window_at a window) (seq 0 (Z.to_nat rows))).

(** Elementwise product of two arrays of equal length. *)
Fixpoint mul_arrays (u v : list R) : list R :=
  match u, v with
  | a :: u', b :: v' => (a * b)%R :: mul_arrays u' v'
  | _, _ => []
  end.

(** Elementwise quotient [num / den]. *)
Fixpoint div_arrays (num den : list xnum) : list xnum :=
  match num, den with
  | a :: n', b :: d' => xdiv a b :: div_arrays n' d'
  | _, _ => []
  end.

(** [c[den == 0] = 0] *)
Fixpoint zero_where_zero (c den : list xnum) : list xnum :=
  match c, den with
  | a :: c', b :: d' =>
      (if xis_zero b then Num 0 else a) :: zero_where_zero c' d'
  | _, _ => c
  end.

(** The numerator and the denominator of the coefficient of one row. *)
Definition xcorr_num (y row : list R) : xnum :=
  Bn.nansum (mul_arrays (Bn.centered y) (Bn.centered row)).

Definition xcorr_den (y row : list R) : xnum :=
  xmul (xmul (Num (INR (length y))) (Bn.nanstd row)) (Bn.nanstd y).

Definition xcorr (x y : list R) : result (list xnum) :=
  let M := length y in
  tmp <- rolling_window x M ;;
  let den := map (xcorr_den y) tmp in
  let c := div_arrays (map (xcorr_num y) tmp) den in
  Ok (zero_where_zero c den).

(** ** Traces and streams

    An ObsPy trace: the header fields the script reads, and the samples.
    The header's [npts] is a field of its own: the script builds traces
    whose header count is not the length of the data ([process_input]
    stores the correlation samples under the count of the continuous
    trace).  [T] is the type of samples and of times. *)

Record Trace (T : Type) : Type := mkTrace {
  network : string;
  station : string;
  channel : string;
  starttime : T;
  sampling_rate : T;
  npts : Z;
  data : list T
}.

Arguments mkTrace {T}.
Arguments network {T}.
Arguments station {T}.
Arguments channel {T}.
Arguments starttime {T}.
Arguments sampling_rate {T}.
Arguments npts {T}.
Arguments data {T}.

(** ** The stacker, over real samples *)

Module Stacker.

Definition trace := Trace R.

(** [stall.traces], the list a [Stream] wraps. *)
Definition stream := list trace.

(** [Trace.__eq__]: equal headers and equal samples. *)
Definition trace_eq_dec (a b : trace) : {a = b} + {a <> b}.
Proof.
  decide equality;
    first [ apply (list_eq_dec Req_dec_T) | apply Z.eq_dec
          | apply Req_dec_T | apply string_dec ].
Defined.

(** [Stream.remove(tr)], that is [list.remove]: the first element equal
    to [tr] goes; [ValueError] when there is none. *)
Fixpoint remove (tr : trace) (traces : stream) : result stream :=
  match traces with
  | [] => Raise ValueError
  | t :: rest =>
      if trace_eq_dec t tr then Ok rest
      else (rest' <- remove tr rest ;; Ok (t :: rest'))
  end.

(** Comparisons of doubles; any comparison with NaN is false. *)
Definition xleb (a b : xnum) : bool :=
  match a, b with
  | NaN, _ | _, NaN => false
  | Num r, Num s => Rleb r s
  | NInf, _ | _, PInf => true
  | _, _ => false
  end.

Definition xgeb (a b : xnum) : bool := xleb b a.

(** The finite entries of an array of doubles. *)
Definition finite_part (l : list xnum) : list R :=
  flat_map (fun v => match v with Num r => [r] | _ => [] end) l.

(** [bn.nanmean] on an array that may hold NaN: the mean of the other
    entries (the entries here are standard deviations, never infinite). *)
Definition nanmean_x (l : list xnum) : xnum := Bn.nanmean (finite_part l).

Definition quality_cft (trac : trace) : xnum :=
  Bn.nanstd (map Rabs (data trac)).

(** The test of the removal loop on the entry [s] of [std_trac]. *)
Definition is_outlier (avestdup avestddw s : xnum) : bool :=
  xgeb s avestdup || xleb s avestddw.

(** The second loop of [stack].  ObsPy's [Stream.__iter__] iterates over
    a copy of the list of traces ([list(self.traces).__iter__()]), so the
    loop visits every trace of the stream as it was on entry, with its own
    index [itr], while [remove] acts on the stream itself. *)
Definition remove_outliers (stall : stream) (stdup stddown : R)
  : result stream :=
  let std_trac := map quality_cft stall in
  let avestd := nanmean_x std_trac in
  let avestdup := xmul avestd (Num stdup) in
  let avestddw := xmul avestd (Num stddown) in
  for_each
    (fun (cur : stream) (p : nat * trace) =>
       let (itr, tr) := p in
       if is_outlier avestdup avestddw (nth itr std_trac NaN)
       then remove tr cur
       else Ok cur)
    (enumerate stall) stall.

Fixpoint add_arrays (u v : list R) : list R :=
  match u, v with
  | a :: u', b :: v' => (a + b)%R :: add_arrays u' v'
  | _, _ => []
  end.

Definition same_length (rows : list (list R)) : bool :=
  match rows with
  | [] => true
  | r :: rest => forallb (fun r' => Nat.eqb (length r') (length r)) rest
  end.

(** [bn.nansum(rows, axis=0) / itr] on a list of arrays.  The empty list
    is an array of one empty axis; bottleneck reduces it to the Python
    float [0.0], and dividing that by the integer [0] raises
    [ZeroDivisionError].  (Were the sum a NumPy scalar, the quotient would
    be NaN and [Trace(data=...)] would refuse it with [ValueError]: [stack]
    returns no trace either way.)  Arrays of different lengths do not form
    a matrix. *)
Definition mean_axis0 (rows : list (list R)) (itr : nat) : result (list R) :=
  match rows with
  | [] => Raise ZeroDivisionError
  | r :: rest =>
      if same_length rows
      then Ok (map (fun v => (v / INR itr)%R) (fold_left add_arrays rest r))
      else Raise ValueError
  end.

(** [stack(stall, df, tstart, npts, stdup, stddown)]: the composite trace
    and the stream as the call leaves it (the removal is in place). *)
Definition stack (stall : stream) (df tstart : R) (npts : Z)
    (stdup stddown : R) : result (trace * stream) :=
  stall' <- remove_outliers stall stdup stddown ;;
  let itr := length stall' in
  tdat <- mean_axis0 (map data stall') itr ;;
  Ok (mkTrace "XX"%string "STACK"%string "BH"%string tstart df npts tdat,
      stall').

(** [min(l)] of Python: the first least element; [ValueError] on an
    empty list. *)
Definition py_min (l : list R) : result R :=
  match l with
  | [] => Raise ValueError
  | a :: rest => Ok (fold_left (fun m v => if Rltb v m then v else m) rest a)
  end.

(** Lines 493-499 of the main loop: header of the composite and call. *)
Definition stack_call (stall : stream) (stdup stddown : R)
  : result (trace * stream) :=
  tstart <- py_min (map starttime stall) ;;
  tr0 <- match stall with [] => Raise IndexError | t :: _ => Ok t end ;;
  let df := sampling_rate tr0 in
  let npts := npts tr0 in
  stack stall df tstart npts stdup stddown.

(** One (template, day) unit as far as the composite trace: what the
    alignment loop produced, and the two multipliers. *)
Record unit_input : Type := mkUnit {
  unit_stall : stream;
  unit_stdup : R;
  unit_stddown : R
}.

(** The loops over days and templates.  No statement of the script
    catches what [stack] raises, so the first unit that fails ends the
    run; the composites of the units done are the output. *)
Fixpoint run_units (units : list unit_input) : result (list trace) :=
  match units with
  | [] => Ok []
  | u :: rest =>
      r <- stack_call (unit_stall u) (unit_stdup u) (unit_stddown u) ;;
      done <- run_units rest ;;
      Ok (fst r :: done)
  end.

End Stacker.

(** ** The alignment loop (lines 479-491)

    [Trace.trim] is ObsPy's; the loop is modelled up to the calls it makes:
    which trace is trimmed, to which window, under which keyword
    arguments.  The stream [stall] collects the trimmed traces in the order
    of the calls. *)

Module Alignment.

Import Stacker.








End Alignment.

(** ** Rational samples: comparisons, rounding, NumPy helpers *)

Module Np.

Local Open Scope Q_scope.

(** A double that may be NaN (the mean or median of an empty array). *)
Inductive pyfloat : Type :=
| Fin (q : Q)
| Nan.

Definition Qltb (a b : Q) : bool := negb (Qle_bool b a).

Definition sum (l : list Q) : Q := fold_right Qplus 0 l.

(** [np.mean], [bn.nanmean] on finite samples *)
Definition mean (l : list Q) : pyfloat :=
  match l with
  | [] => Nan
  | _ => Fin (sum l / inject_Z (len l))
  end.

(** Round to the nearest integer, ties to even: [np.rint], and [round]
    of Python 3 without digits. *)
Definition rint (q : Q) : Z :=
  let f := Qfloor q in
  let r := q - inject_Z f in
  if Qltb r (1 # 2) then f
  else if Qltb (1 # 2) r then (f + 1)%Z
  else if Z.even f then f else (f + 1)%Z.

(** [round(x, decimals)] on a NumPy double:
    [rint(x * 10**decimals) / 10**decimals]. *)
Definition round_to (decimals : nat) (x : pyfloat) : pyfloat :=
  match x with
  | Nan => Nan
  | Fin q =>
      let scale := inject_Z (10 ^ Z.of_nat decimals) in
      Fin (Qred (inject_Z (rint (q * scale)) / scale))
  end.

Fixpoint insert (v : Q) (sorted : list Q) : list Q :=
  match sorted with
  | [] => [v]
  | a :: rest => if Qle_bool v a then v :: sorted else a :: insert v rest
  end.

Definition sort (l : list Q) : list Q := fold_right insert [] l.

(** [np.median]: the middle of the sorted array, the mean of the two
    middle entries for an even length, NaN for an empty array. *)
Definition median (l : list Q) : pyfloat :=
  let s := sort l in
  let n := length s in
  match n with
  | O => Nan
  | _ =>
      if Nat.even n
      then Fin ((nth (n / 2 - 1) s 0 + nth (n / 2) s 0) / 2)
      else Fin (nth (n / 2) s 0)
  end.

(** [np.nonzero(a)[0]]: the indices of the entries that are not zero. *)
Definition nonzero (a : list Q) : list nat :=
  map fst (filter (fun p => negb (Qeq_bool (snd p) 0)) (enumerate a)).

(** [np.where(s <= m)]: the indices of the entries at most [m]. *)
Definition where_le (s : list Q) (m : Q) : list nat :=
  map fst (filter (fun p => Qle_bool (snd p) m) (enumerate s)).

(** [a[inds]] for an array of indices within range. *)
Definition take (a : list Q) (inds : list nat) : list Q :=
  map (fun i => nth i a 0) inds.

Fixpoint set_nth (a : list Q) (i : nat) (v : Q) : list Q :=
  match a, i with
  | [], _ => []
  | _ :: a', O => v :: a'
  | x :: a', S j => x :: set_nth a' j v
  end.

(** [a[inds] = v] *)
Definition put (a : list Q) (inds : list nat) (v : Q) : list Q :=
  fold_left (fun acc i => set_nth acc i v) inds a.

(** [np.arange(n)] *)
Definition arange (n : nat) : list nat := seq 0 n.

End Np.

(** ** [reject_moutliers] and the magnitude of a detection *)

Module Magnitude.

Import Np.
Local Open Scope Q_scope.

Definition reject_moutliers (data : list Q) (m : Q) : list Q :=
  let nonzeroind := nonzero data in
  let nzlen := length nonzeroind in
  let data := take data nonzeroind in
  match median data with
  | Nan =>
      (* [mdev] is NaN and [mdev == 0] is false; [d] and [s] are empty *)
      take data (where_le [] m)
  | Fin datamed =>
      let d := map (fun v => Qabs (v - datamed)) data in
      match median d with
      | Nan => take data (where_le [] m)
      | Fin meddev =>
          let mdev := 2 * meddev in
          if Qeq_bool mdev 0
          then
            let inds := arange nzlen in
            let data := put data inds datamed in
            take data inds
          else
            let s := map (fun v => v / mdev) d in
            let inds := where_le s m in
            take data inds
      end
  end.

(** Lines 616-617: [mm[itrig] = round(np.mean(mdr), 2)] with
    [mdr = reject_moutliers(md, 1)]. *)
Definition combined_magnitude (md : list Q) : pyfloat :=
  let mdr := reject_moutliers md 1 in
  round_to 2 (mean mdr).

End Magnitude.

(** ** [csc], the check of a trigger on the single channels *)

Module Validator.

Import Np.
Local Open Scope Q_scope.

Definition trace := Trace Q.
Definition stream := list trace.

(** A trigger of [coincidence_trigger]; [csc] reads its time only. *)
Record trigger : Type := mkTrigger {
  trg_time : Q
}.

(** [stats.delta]: the sample interval, zero for a zero sampling rate. *)
Definition delta (tr : trace) : Q :=
  if Qeq_bool (sampling_rate tr) 0 then 0 else / sampling_rate tr.

(** [int(round(trigger_shift / tcft.stats.delta))] with [tcft = stCC[0]] *)
Definition trigger_sample_of (stCC : stream) (trg : trigger) : result Z :=
  match stCC with
  | [] => Raise IndexError
  | tcft :: _ =>
      let t0_tcft := starttime tcft in
      let trigger_shift := trg_time trg - t0_tcft in
      if Qeq_bool (delta tcft) 0 then Raise ZeroDivisionError
      else Ok (rint (trigger_shift / delta tcft))
  end.

(** [max(a)] of Python on an array: the first greatest entry. *)
Definition py_max (a : list Q) : result Q :=
  match a with
  | [] => Raise ValueError
  | v :: rest => Ok (fold_left (fun m w => if Qltb m w then w else m) rest v)
  end.

(** [np.argmax(a)]: the index of the first greatest entry. *)
Definition argmax (a : list Q) : result nat :=
  match a with
  | [] => Raise ValueError
  | v :: rest =>
      Ok (fst (fold_left
                 (fun (best : nat * Q) (p : nat * Q) =>
                    if Qltb (snd best) (snd p) then p else best)
                 (combine (seq 1 (length rest)) rest) (O, v)))
  end.

(** Storing an array in one cell of a float array: its only entry. *)
Definition as_scalar (a : list Q) : result Q :=
  match a with
  | [v] => Ok v
  | _ => Raise ValueError
  end.

(** What the loop stores for one channel. *)
Record channel_check : Type := mkCheck {
  chan_sct : string;
  max_sct : Q;
  max_ind : Q;
  max_trg : Q
}.

(** The window [tsc.data[tmp0:tmp1]] the loop takes its maximum over. *)
Definition search_window (tsc : trace) (trigger_sample sample_tolerance : Z)
  : list Q :=
  let tmp0 := (trigger_sample - sample_tolerance)%Z in
  let tmp1 := (trigger_sample + sample_tolerance + 1)%Z in
  slice (data tsc) tmp0 tmp1.

(** The body of the loop over the channels (lines 185-192).  The label is
    stored in a [chararray] of item size 12, which cuts it. *)
Definition check_channel (trigger_sample sample_tolerance : Z) (tsc : trace)
  : result channel_check :=
  let label :=
    substring 0 12
      (network tsc ++ "." ++ station tsc ++ " " ++ channel tsc)%string in
  let w := search_window tsc trigger_sample sample_tolerance in
  m <- py_max w ;;
  i <- argmax w ;;
  let ind := inject_Z sample_tolerance - inject_Z (Z.of_nat i) in
  t <- as_scalar (slice (data tsc) trigger_sample (trigger_sample + 1)) ;;
  Ok (mkCheck label m ind t).

Fixpoint check_channels (trigger_sample sample_tolerance : Z) (stall : stream)
  : result (list channel_check) :=
  match stall with
  | [] => Ok []
  | tsc :: rest =>
      c <- check_channel trigger_sample sample_tolerance tsc ;;
      cs <- check_channels trigger_sample sample_tolerance rest ;;
      Ok (c :: cs)
  end.

(** [(a > level).sum()] *)
Definition count_above (level : Q) (a : list Q) : Z :=
  len (filter (fun v => Qltb level v) a).

(** The nine values [csc] returns. *)
Record statistics : Type := mkStatistics {
  nch : Z;
  cft_ave : pyfloat;
  crt : pyfloat;
  cft_ave_trg : pyfloat;
  crt_trg : pyfloat;
  nch03 : Z;
  nch05 : Z;
  nch07 : Z;
  nch09 : Z
}.

(** The values of the [else] branch. *)
Definition sentinel : statistics :=
  mkStatistics 1 (Fin 1) (Fin 1) (Fin 1) (Fin 1) 1 1 1 1.

(** A quotient of two Python floats. *)
Definition float_div (a : pyfloat) (b : Q) : result pyfloat :=
  if Qeq_bool b 0 then Raise ZeroDivisionError
  else Ok (match a with Fin q => Fin (q / b) | Nan => Nan end).

(** A line written to [f1]: channel, exact value, peak, offset. *)
Definition diagnostic : Type := (string * Q * Q * Q)%type.

Definition csc (stall stCC : stream) (trg : trigger) (tstda : Q)
    (sample_tol : Z) (cc_threshold : Q) (nch_min : Z)
  : result (statistics * list diagnostic) :=
  let sample_tolerance := sample_tol in
  let single_channelcft := cc_threshold in
  trigger_sample <- trigger_sample_of stCC trg ;;
  checks <- check_channels trigger_sample sample_tolerance stall ;;
  let peaks := map max_sct checks in
  let nch := count_above single_channelcft peaks in
  if (nch_min <=? nch)%Z then
    let nch09 := count_above (9 # 10) peaks in
    let nch07 := count_above (7 # 10) peaks in
    let nch05 := count_above (5 # 10) peaks in
    let nch03 := count_above (3 # 10) peaks in
    let cft_ave := mean peaks in
    crt <- float_div cft_ave tstda ;;
    let cft_ave_trg := mean (map max_trg checks) in
    crt_trg <- float_div cft_ave_trg tstda ;;
    Ok (mkStatistics nch cft_ave crt cft_ave_trg crt_trg
          nch03 nch05 nch07 nch09,
        map (fun c => (chan_sct c, max_trg c, max_sct c, max_ind c)) checks)
  else Ok (sentinel, []).

(** *** The loop over the triggers (lines 548-637) *)

(** A line of the catalogue of detections. *)
Record detection : Type := mkDetection {
  det_itrig : nat;
  det_time : Q;
  det_mm : pyfloat;
  det_nch : Z;
  det_cft_ave : pyfloat;
  det_crt : pyfloat;
  det_cft_ave_trg : pyfloat;
  det_crt_trg : pyfloat;
  det_nch3 : Z;
  det_nch5 : Z;
  det_nch7 : Z;
  det_nch9 : Z
}.

(** What the loop needs from the rest of the run.  [channel_magnitudes]
    stands for lines 567-614: the array [md] of the magnitudes of the
    channels for a trigger, zero where none was computed. *)
Record settings : Type := mkSettings {
  cfg_stall : stream;
  cfg_stCC : stream;
  cfg_tstda : Q;
  cfg_sample_tol : Z;
  cfg_cc_threshold : Q;
  cfg_nch_min : Z;
  cfg_tdifmin : Q;
  cfg_min_time_value : Q;
  channel_magnitudes : nat -> trigger -> list Q
}.

(** The body of the loop for the trigger [itrig]: the diagnostics written
    and, when the test [int(nch[itrig]) >= nch_min] passes, the detection
    written.  The values stored in [cs], [cft_ave] and [crt] before the call
    of [csc] (lines 556-558) are overwritten by its results or never read,
    and are left out. *)
Definition trigger_body (cfg : settings) (itrig : nat) (trg : trigger)
  : result (list diagnostic * option detection) :=
  let tt :=
    if Qeq_bool (cfg_tdifmin cfg) (cfg_min_time_value cfg)
    then trg_time trg + cfg_tdifmin cfg
    else trg_time trg + (cfg_min_time_value cfg - cfg_tdifmin cfg) in
  r <- csc (cfg_stall cfg) (cfg_stCC cfg) trg (cfg_tstda cfg)
         (cfg_sample_tol cfg) (cfg_cc_threshold cfg) (cfg_nch_min cfg) ;;
  let (st, lines) := r in
  if (cfg_nch_min cfg <=? nch st)%Z then
    let md := channel_magnitudes cfg itrig trg in
    let mm := Magnitude.combined_magnitude md in
    Ok (lines,
        Some (mkDetection itrig tt mm (nch st)
                (round_to 3 (cft_ave st)) (round_to 3 (crt st))
                (round_to 3 (cft_ave_trg st)) (round_to 3 (crt_trg st))
                (nch03 st) (nch05 st) (nch07 st) (nch09 st)))
  else Ok (lines, None).


End Validator.

(** ** What the claims speak of

    Definitions that follow the words of the specification, to be compared
    with the functions above. *)

(** The coefficient of one window: zero where the denominator is zero, the
    quotient elsewhere. *)
Definition xcorr_at (y row : list R) : xnum :=
  if xis_zero (xcorr_den y row) then Num 0
  else xdiv (xcorr_num y row) (xcorr_den y row).

Module StackerSpec.

Import Stacker.

(** [std_i = standardDeviation(abs(trace_i.samples))] *)
Definition std_abs (tr : trace) : xnum := Bn.nanstd (map Rabs (data tr)).

(** [avgStd = mean(std_i)] *)
Definition avgStd (traces : stream) : xnum := nanmean_x (map std_abs traces).

(** [std_i >= avgStd*stdUpMultiplier] or
    [std_i <= avgStd*stdDownMultiplier] *)
Definition removed (traces : stream) (up down : R) (tr : trace) : bool :=
  xgeb (std_abs tr) (xmul (avgStd traces) (Num up))
  || xleb (std_abs tr) (xmul (avgStd traces) (Num down)).

(** The surviving traces, in the order of the input. *)
Definition survivors (traces : stream) (up down : R) : stream :=
  filter (fun tr => negb (removed traces up down tr)) traces.

(** Sample [j] of the mean of the traces. *)
Definition mean_sample (traces : stream) (j : nat) : R :=
  Bn.mean (map (fun tr => nth j (data tr) 0%R) traces).

End StackerSpec.

Module AlignmentSpec.

Import Stacker Alignment.




End AlignmentSpec.

Module MagnitudeSpec.

Import Np.
Local Open Scope Q_scope.

(** The rejector in the words of the specification: drop the exact zeros,
    take the median and twice the median of the absolute deviations, keep
    the values within [m] scaled deviations; with a zero [mdev] every value
    becomes the median. *)
Definition outlier_rejector (values : list Q) (m : Q) : list Q :=
  let rest := filter (fun v => negb (Qeq_bool v 0)) values in
  match median rest with
  | Nan => []
  | Fin med =>
      match median (map (fun v => Qabs (v - med)) rest) with
      | Nan => []
      | Fin mad =>
          let mdev := 2 * mad in
          if Qeq_bool mdev 0 then map (fun _ => med) rest
          else filter (fun v => Qle_bool (Qabs (v - med) / mdev) m) rest
      end
  end.

End MagnitudeSpec.

Module ValidatorSpec.

Import Validator.


(** The window of [sample_tolerance] samples on either side of the trigger
    sample, clipped to the trace. *)
Definition clipped_window (tsc : trace) (trigger_sample sample_tolerance : Z)
  : list Q :=
  slice (data tsc) (Z.max 0 (trigger_sample - sample_tolerance))
    (trigger_sample + sample_tolerance + 1).

End ValidatorSpec.

(** ** Sample inputs *)

Module Samples.

Import Stacker.

(** A correlation trace of two samples, [0] and [b], one sample per
    second. *)
Definition two_samples (start b : R) : trace :=
  mkTrace "XX"%string "STA"%string "BHZ"%string start 1%R 2%Z [0%R; b].

(** Three channels; the deviations of the absolute samples are 1, 2
    and 6, and the third channel, the earliest, is an outlier above. *)
Definition three_channels : stream :=
  [two_samples 5 2; two_samples 7 4; two_samples 0 12].

(** A single dead channel. *)
Definition dead_channel : stream := [two_samples 0 0].

Definition good_unit : unit_input := mkUnit three_channels (3 / 2)%R (1 / 5)%R.

Definition dead_unit : unit_input := mkUnit dead_channel (3 / 2)%R (1 / 5)%R.



(** One weak channel, one trigger at its second sample, and a run that
    asks for one channel above 0.5. *)
Definition weak_channel : Validator.trace :=
  mkTrace "XX"%string "STA"%string "BHZ"%string 0%Q 1%Q 3%Z
    [1 # 10; 2 # 10; 1 # 10]%Q.




(** A trigger on the first sample of a channel of ten samples. *)
Definition ten_samples : Validator.trace :=
  mkTrace "XX"%string "STA"%string "BHZ"%string 0%Q 1%Q 10%Z
    [9 # 10; 1 # 10; 0; 0; 0; 0; 0; 0; 0; 3 # 10]%Q.

End Samples.

(** ** Changes of the input

    Not code of the script: the change of gain and offset of a continuous
    record under which the coefficients of [xcorr] are compared.  Every
    sample [v] becomes [gain * v + offset]. *)
Definition rescale (gain offset : R) (a : list R) : list R :=
  map (fun v => (gain * v + offset)%R) a.

(** * Properties *)

(** ** Deciding on reals *)

Lemma Reqb_true (a b : R) : a = b -> Reqb a b = true.
Proof. intros H. unfold Reqb. destruct (Req_dec_T a b); congruence. Qed.

Lemma Reqb_false (a b : R) : a <> b -> Reqb a b = false.
Proof. intros H. unfold Reqb. destruct (Req_dec_T a b); congruence. Qed.

Lemma Rleb_true (a b : R) : (a <= b)%R -> Rleb a b = true.
Proof. intros H. unfold Rleb. destruct (Rle_dec a b); tauto. Qed.

Lemma Rleb_false (a b : R) : (b < a)%R -> Rleb a b = false.
Proof. intros H. unfold Rleb. destruct (Rle_dec a b); [lra | reflexivity]. Qed.

Lemma Rltb_true (a b : R) : (a < b)%R -> Rltb a b = true.
Proof. intros H. unfold Rltb. destruct (Rlt_dec a b); tauto. Qed.

Lemma Rltb_false (a b : R) : (b <= a)%R -> Rltb a b = false.
Proof. intros H. unfold Rltb. destruct (Rlt_dec a b); [lra | reflexivity]. Qed.

(** Settle the comparisons of real constants in the goal. *)
Ltac decide_reals :=
  repeat match goal with
         | |- context [Rleb ?a ?b] =>
             first [ rewrite (Rleb_true a b) by lra
                   | rewrite (Rleb_false a b) by lra ]
         | |- context [Rltb ?a ?b] =>
             first [ rewrite (Rltb_true a b) by lra
                   | rewrite (Rltb_false a b) by lra ]
         | |- context [Reqb ?a ?b] =>
             first [ rewrite (Reqb_true a b) by lra
                   | rewrite (Reqb_false a b) by lra ]
         end.

(** ** The cross-correlation *)

Section XCorr.

Local Open Scope R_scope.

Lemma zero_where_zero_map {A : Type} (f g : A -> xnum) (l : list A) :
  zero_where_zero (div_arrays (map f l) (map g l)) (map g l)
  = map (fun r => if xis_zero (g r) then Num 0 else xdiv (f r) (g r)) l.
Proof.
  induction l as [|a l IH]; simpl; [reflexivity|].
  now rewrite IH.
Qed.

Lemma rolling_window_rows (a : list R) (window : nat) :
  (window <= length a + 1)%nat ->
  rolling_window a window
  = Ok (map (window_at a window) (seq 0 (length a + 1 - window))).
Proof.
  intros H. unfold rolling_window, len.
  destruct (Z.ltb_spec (Z.of_nat (length a) - Z.of_nat window + 1) 0) as [Hn|Hn].
  - lia.
  - do 3 f_equal. lia.
Qed.

Lemma rolling_window_raises (a : list R) (window : nat) :
  (length a + 1 < window)%nat -> rolling_window a window = Raise ValueError.
Proof.
  intros H. unfold rolling_window, len.
  destruct (Z.ltb_spec (Z.of_nat (length a) - Z.of_nat window + 1) 0) as [Hn|Hn].
  - reflexivity.
  - lia.
Qed.

(** Within the range of [rolling_window], [xcorr] is [xcorr_at] on every
    row. *)
Lemma xcorr_rows (x y : list R) :
  (length y <= length x + 1)%nat ->
  xcorr x y
  = Ok (map (fun i => xcorr_at y (window_at x (length y) i))
          (seq 0 (length x + 1 - length y))).
Proof.
  intros H. unfold xcorr. rewrite (rolling_window_rows _ _ H). simpl.
  rewrite zero_where_zero_map, map_map. reflexivity.
Qed.



Lemma sum_squares_nonneg (l : list R) :
  0 <= Bn.sum (map (fun v => v * v) l).
Proof.
  induction l as [|a l IH]; simpl; [lra|]. nra.
Qed.

Lemma var_nonneg (l : list R) : 0 <= Bn.var l.
Proof.
  unfold Bn.var, Bn.mean. rewrite length_map.
  destruct l as [|a l].
  - simpl. unfold Rdiv. rewrite Rinv_0. lra.
  - apply Rmult_le_pos; [apply sum_squares_nonneg|].
    apply Rlt_le, Rinv_0_lt_compat, lt_0_INR. unfold Bn.centered.
    rewrite length_map. simpl. lia.
Qed.


(** The square of the standard deviation, times the length, is the sum of
    the squared deviations. *)
Lemma length_std_std (l : list R) :
  l <> [] ->
  INR (length l) * Bn.std l * Bn.std l
  = Bn.sum (map (fun v => v * v) (Bn.centered l)).
Proof.
  intros Hl. unfold Bn.std. rewrite Rmult_assoc, sqrt_sqrt by apply var_nonneg.
  unfold Bn.var, Bn.mean. rewrite length_map. unfold Bn.centered at 2.
  rewrite length_map. field.
  apply not_0_INR. destruct l; [congruence | discriminate].
Qed.



End XCorr.

Section XCorrClaims.

Local Open Scope R_scope.

(** The standard deviation of two samples is half their distance. *)
Lemma std_pair (a b : R) : Bn.std [a; b] = Rabs (a - b) / 2.
Proof.
  unfold Bn.std, Bn.var, Bn.centered, Bn.mean. simpl.
  replace ((((a - (a + (b + 0)) / (1 + 1)) * (a - (a + (b + 0)) / (1 + 1))
             + ((b - (a + (b + 0)) / (1 + 1)) * (b - (a + (b + 0)) / (1 + 1))
                + 0)) / (1 + 1)))
    with (Rsqr ((a - b) / 2)) by (unfold Rsqr; field).
  rewrite sqrt_Rsqr_abs. unfold Rdiv. rewrite Rabs_mult.
  f_equal. apply Rabs_pos_eq. lra.
Qed.




(** With a template of at least one sample every coefficient is a finite
    number. *)
Lemma xcorr_at_finite (y row : list R) :
  y <> [] -> row <> [] -> exists r, xcorr_at y row = Num r.
Proof.
  intros Hy Hr. unfold xcorr_at, xcorr_den, xcorr_num, Bn.nansum, Bn.nanstd.
  destruct y; [congruence|]. destruct row; [congruence|].
  cbn [xmul xis_zero xdiv].
  destruct (Reqb _ 0); eauto.
Qed.





End XCorrClaims.

(** ** The stacker *)

Section StackerProofs.

Import Stacker StackerSpec.
Local Open Scope R_scope.

(** [remove] takes the first occurrence. *)
Lemma remove_first (tr : trace) (before after : stream) :
  (forall u, In u before -> u <> tr) ->
  remove tr (before ++ tr :: after) = Ok (before ++ after).
Proof.
  induction before as [|b before IH]; intros Hne; simpl.
  - destruct (trace_eq_dec tr tr); [reflexivity | congruence].
  - destruct (trace_eq_dec b tr) as [E|_].
    + exfalso. apply (Hne b); [now left | exact E].
    + rewrite IH; [reflexivity|]. intros u Hu. apply Hne. now right.
Qed.

(** The removal loop over a copy of the stream: when the test at index
    [itr] is a test on the trace met there, what is left is the stream
    filtered. *)
Lemma removal_loop (P : trace -> bool) (test : nat -> bool) :
  forall (todo done : stream) (k : nat),
    (forall j tr, nth_error todo j = Some tr -> test (k + j)%nat = P tr) ->
    for_each
      (fun (cur : stream) (p : nat * trace) =>
         let (itr, tr) := p in
         if test itr then remove tr cur else Ok cur)
      (combine (seq k (length todo)) todo)
      (filter (fun tr => negb (P tr)) done ++ todo)
    = Ok (filter (fun tr => negb (P tr)) (done ++ todo)).
Proof.
  induction todo as [|t todo IH]; intros done k Ht.
  - simpl. now rewrite !app_nil_r.
  - cbn [length seq combine for_each].
    assert (Hk : test k = P t).
    { rewrite <- (Ht O t eq_refl). f_equal. lia. }
    assert (Hrest : forall j tr, nth_error todo j = Some tr ->
                                 test (S k + j)%nat = P tr).
    { intros j tr Hj. rewrite <- (Ht (S j) tr Hj). f_equal. lia. }
    specialize (IH (done ++ [t]) (S k) Hrest).
    rewrite <- app_assoc in IH. cbn [app] in IH.
    rewrite filter_app in IH. cbn [filter] in IH.
    rewrite Hk. destruct (P t) eqn:HP; cbn [negb] in IH.
    + rewrite remove_first.
      * cbn [bind]. rewrite app_nil_r in IH. exact IH.
      * intros u Hu ->. apply filter_In in Hu as [_ Hu].
        rewrite HP in Hu. discriminate.
    + cbn [bind]. rewrite <- app_assoc in IH. exact IH.
Qed.

(** The loop of [stack] removes the outliers of the specification and
    nothing else, and does not raise. *)
Lemma remove_outliers_filter (stall : stream) (stdup stddown : R) :
  remove_outliers stall stdup stddown = Ok (survivors stall stdup stddown).
Proof.
  unfold remove_outliers, enumerate.
  pose proof (removal_loop (removed stall stdup stddown)
    (fun itr => is_outlier
       (xmul (nanmean_x (map quality_cft stall)) (Num stdup))
       (xmul (nanmean_x (map quality_cft stall)) (Num stddown))
       (nth itr (map quality_cft stall) NaN)) stall [] O) as H.
  cbn [filter app] in H. apply H.
  intros j tr Hj. cbn [Nat.add].
  unfold removed, is_outlier, avgStd, std_abs.
  replace (nth j (map quality_cft stall) NaN) with (quality_cft tr);
    [reflexivity|].
  symmetry. apply nth_error_nth with (d := NaN).
  now rewrite nth_error_map, Hj.
Qed.

Lemma add_arrays_length (u v : list R) :
  length v = length u -> length (add_arrays u v) = length u.
Proof.
  revert v. induction u as [|a u IH]; intros [|b v] H; simpl in *;
    try discriminate; auto.
Qed.

Lemma add_arrays_nth (u v : list R) (j : nat) :
  length v = length u -> (j < length u)%nat ->
  nth j (add_arrays u v) 0 = nth j u 0 + nth j v 0.
Proof.
  revert v j. induction u as [|a u IH]; intros [|b v] j H Hj; simpl in *;
    try discriminate; try lia.
  destruct j; [reflexivity|]. apply IH; lia.
Qed.

Lemma sum_columns (rest : list (list R)) :
  forall (r : list R) (j : nat),
    Forall (fun r' => length r' = length r) rest ->
    (j < length r)%nat ->
    length (fold_left add_arrays rest r) = length r /\
    nth j (fold_left add_arrays rest r) 0
    = nth j r 0 + Bn.sum (map (fun r' => nth j r' 0) rest).
Proof.
  induction rest as [|r1 rest IH]; intros r j Hall Hj; simpl.
  - split; [reflexivity | ring].
  - inversion Hall as [|? ? H1 Hrest]; subst.
    assert (Hlen : length (add_arrays r r1) = length r)
      by now apply add_arrays_length.
    destruct (IH (add_arrays r r1) j) as [IH1 IH2].
    + rewrite Hlen. exact Hrest.
    + now rewrite Hlen.
    + split; [now rewrite IH1|].
      rewrite IH2, add_arrays_nth by assumption. ring.
Qed.

Lemma sum_columns_length (rest : list (list R)) (r : list R) :
  Forall (fun r' => length r' = length r) rest ->
  length (fold_left add_arrays rest r) = length r.
Proof.
  revert r. induction rest as [|r1 rest IH]; intros r Hall; simpl.
  - reflexivity.
  - inversion Hall as [|? ? H1 Hrest]; subst.
    rewrite IH; rewrite add_arrays_length by assumption;
      [reflexivity | exact Hrest].
Qed.

Lemma same_length_Forall (r : list R) (rest : list (list R)) :
  same_length (r :: rest) = true ->
  Forall (fun r' => length r' = length r) rest.
Proof.
  simpl. intros H. apply Forall_forall. intros r' Hin.
  rewrite forallb_forall in H. now apply Nat.eqb_eq, H.
Qed.

(** The mean along the first axis, sample by sample. *)
Lemma mean_axis0_samples (t : trace) (kept : stream) :
  same_length (map data (t :: kept)) = true ->
  exists tdat,
    mean_axis0 (map data (t :: kept)) (length (t :: kept)) = Ok tdat /\
    length tdat = length (data t) /\
    forall j, (j < length tdat)%nat ->
              nth j tdat 0 = mean_sample (t :: kept) j.
Proof.
  intros Hs. unfold mean_axis0. cbn [map]. cbn [map] in Hs. rewrite Hs.
  pose proof (same_length_Forall _ _ Hs) as Hall.
  eexists. split; [reflexivity|]. split.
  - now rewrite length_map, sum_columns_length.
  - intros j Hj. rewrite length_map, sum_columns_length in Hj by assumption.
    destruct (sum_columns _ _ j Hall Hj) as [Hl Hn].
    rewrite (nth_indep _ 0 ((fun v => v / INR (length (t :: kept))) 0))
      by (now rewrite length_map, Hl).
    rewrite (map_nth (fun v => v / INR (length (t :: kept)))), Hn.
    unfold mean_sample, Bn.mean. cbn [map Bn.sum fold_right length].
    rewrite length_map, map_map. reflexivity.
Qed.

End StackerProofs.

Section StackerClaims.

Import Stacker StackerSpec Samples.
Local Open Scope R_scope.

Lemma stack_on_survivors (stall : stream) (df tstart : R) (npts : Z)
    (stdup stddown : R) :
  survivors stall stdup stddown <> [] ->
  same_length (map data (survivors stall stdup stddown)) = true ->
  exists tdat,
    stack stall df tstart npts stdup stddown
    = Ok (mkTrace "XX"%string "STACK"%string "BH"%string tstart df npts tdat,
          survivors stall stdup stddown) /\
    (forall j, (j < length tdat)%nat ->
               nth j tdat 0 = mean_sample (survivors stall stdup stddown) j) /\
    (forall tr, In tr (survivors stall stdup stddown) ->
                length tdat = length (data tr)).
Proof.
  intros Hne Hsame. unfold stack. rewrite remove_outliers_filter. cbn [bind].
  destruct (survivors stall stdup stddown) as [|t kept] eqn:Hk; [congruence|].
  destruct (mean_axis0_samples t kept Hsame) as [tdat [Hm [Hl Hj]]].
  rewrite Hm. cbn [bind]. exists tdat. split; [reflexivity|].
  split; [exact Hj|].
  intros tr [<-|Hin]; [exact Hl|].
  rewrite Hl. symmetry.
  pose proof (same_length_Forall _ _ Hsame) as Hall.
  rewrite Forall_forall in Hall. apply Hall. now apply in_map.
Qed.

(** [stack] returns only when traces of one length survive. *)
Lemma stack_returns (stall : stream) (df tstart : R) (npts : Z)
    (stdup stddown : R) (tt : trace) (kept : stream) :
  stack stall df tstart npts stdup stddown = Ok (tt, kept) ->
  survivors stall stdup stddown <> [] /\
  same_length (map data (survivors stall stdup stddown)) = true.
Proof.
  unfold stack. rewrite remove_outliers_filter. cbn [bind].
  unfold mean_axis0.
  destruct (survivors stall stdup stddown) as [|t rest]; cbn [map bind];
    [discriminate|].
  destruct (same_length (data t :: map data rest)); cbn [bind];
    [split; [discriminate | reflexivity] | discriminate].
Qed.

(** C1: for every stream, the loop of [stack] removes exactly the traces
    whose deviation is at least [avgStd*stdUpMultiplier] or at most
    [avgStd*stdDownMultiplier]; whenever [stack] returns a composite it is
    the mean, sample by sample, of the survivors, and it returns one as soon
    as traces of one length survive. *)
Theorem stack_mean_of_survivors (stall : stream) (df tstart : R) (npts : Z)
    (stdup stddown : R) :
  remove_outliers stall stdup stddown = Ok (survivors stall stdup stddown) /\
  (forall tr, In tr (survivors stall stdup stddown) <->
              In tr stall /\ removed stall stdup stddown tr = false) /\
  (forall tt kept,
      stack stall df tstart npts stdup stddown = Ok (tt, kept) ->
      kept = survivors stall stdup stddown /\
      (forall j, (j < length (data tt))%nat ->
                 nth j (data tt) 0 = mean_sample kept j) /\
      (forall tr, In tr kept -> length (data tt) = length (data tr))) /\
  (survivors stall stdup stddown <> [] ->
   same_length (map data (survivors stall stdup stddown)) = true ->
   exists tt,
     stack stall df tstart npts stdup stddown
     = Ok (tt, survivors stall stdup stddown)).
Proof.
  split; [apply remove_outliers_filter|]. split; [|split].
  - intros tr. unfold survivors. rewrite filter_In, negb_true_iff. tauto.
  - intros tt kept Hs.
    destruct (stack_returns _ _ _ _ _ _ _ _ Hs) as [Hne Hsame].
    destruct (stack_on_survivors stall df tstart npts stdup stddown Hne Hsame)
      as [tdat [Hs' [Hj Hl]]].
    rewrite Hs' in Hs. injection Hs as <- <-. cbn [data].
    repeat split; assumption.
  - intros Hne Hsame.
    destruct (stack_on_survivors stall df tstart npts stdup stddown Hne Hsame)
      as [tdat [Hs _]].
    eexists. exact Hs.
Qed.

(** The deviation of a trace of the two samples [0] and [b]. *)
Lemma std_abs_two_samples (start b : R) :
  0 <= b -> std_abs (two_samples start b) = Num (b / 2).
Proof.
  intros Hb. unfold std_abs, two_samples, Bn.nanstd. cbn [data map].
  rewrite std_pair, Rabs_R0, (Rabs_pos_eq b Hb). f_equal.
  unfold Rabs. destruct (Rcase_abs (0 - b)); lra.
Qed.

Lemma three_channels_avgStd : avgStd three_channels = Num 3.
Proof.
  unfold avgStd, three_channels. cbn [map].
  rewrite !std_abs_two_samples by lra.
  unfold nanmean_x, Bn.nanmean, Bn.mean. cbn. f_equal. field.
Qed.

Lemma three_channels_survivors :
  survivors three_channels (3 / 2) (1 / 5)
  = [two_samples 5 2; two_samples 7 4].
Proof.
  unfold survivors, removed. rewrite three_channels_avgStd.
  unfold three_channels at 1. cbn [filter].
  rewrite !std_abs_two_samples by lra.
  cbn [xmul xgeb xleb]. decide_reals. reflexivity.
Qed.

Lemma stack_mean_of_survivors_witness :
  exists tt,
    stack three_channels 1 0 2 (3 / 2) (1 / 5)
    = Ok (tt, [two_samples 5 2; two_samples 7 4]) /\
    nth 1 (data tt) 0 = 3.
Proof.
  destruct (stack_mean_of_survivors three_channels 1 0 2 (3 / 2) (1 / 5))
    as [_ [_ [Hmean Hret]]].
  destruct Hret as [tt Hs].
  - rewrite three_channels_survivors. discriminate.
  - rewrite three_channels_survivors. reflexivity.
  - destruct (Hmean tt _ Hs) as [_ [Hj Hl]].
    rewrite three_channels_survivors in Hs, Hj, Hl.
    exists tt. split; [exact Hs|].
    rewrite Hj.
    + unfold mean_sample, Bn.mean. cbn. field.
    + rewrite (Hl (two_samples 5 2)); [cbn; lia | now left].
Defined.

End StackerClaims.

Section StackerHeader.

Import Stacker StackerSpec Samples.
Local Open Scope R_scope.

Lemma fold_min_spec (rest : list R) :
  forall a : R,
    let m := fold_left (fun m v => if Rltb v m then v else m) rest a in
    In m (a :: rest) /\ forall v, In v (a :: rest) -> m <= v.
Proof.
  induction rest as [|b rest IH]; intros a; cbn [fold_left].
  - split; [now left|]. intros v [<-|[]]. lra.
  - specialize (IH (if Rltb b a then b else a)). cbv zeta in IH.
    destruct IH as [Hin Hle]. unfold Rltb in *.
    destruct (Rlt_dec b a) as [Hlt|Hge].
    + split.
      * destruct Hin as [<-|Hin]; [right; now left | right; now right].
      * intros v [<-|[<-|Hv]].
        -- assert (H := Hle b (or_introl eq_refl)). lra.
        -- apply Hle. now left.
        -- apply Hle. now right.
    + split.
      * destruct Hin as [<-|Hin]; [now left | right; now right].
      * intros v [<-|[<-|Hv]].
        -- apply Hle. now left.
        -- assert (H := Hle a (or_introl eq_refl)). lra.
        -- apply Hle. now right.
Qed.

(** [min] returns a least element of a list that has one. *)
Lemma py_min_least (a : R) (rest : list R) :
  exists m, py_min (a :: rest) = Ok m /\ In m (a :: rest) /\
            forall v, In v (a :: rest) -> m <= v.
Proof.
  eexists. split; [reflexivity|]. apply fold_min_spec.
Qed.

(** C8 (amended): the composite starts at the least start time of all the
    traces handed to [stack], removed or not, and takes its sampling rate
    and its sample count from the first of them. *)
Theorem composite_header_from_input (t0 : trace) (rest : stream)
    (stdup stddown : R) :
  survivors (t0 :: rest) stdup stddown <> [] ->
  same_length (map data (survivors (t0 :: rest) stdup stddown)) = true ->
  exists tt,
    stack_call (t0 :: rest) stdup stddown
    = Ok (tt, survivors (t0 :: rest) stdup stddown) /\
    In (starttime tt) (map starttime (t0 :: rest)) /\
    (forall tr, In tr (t0 :: rest) -> starttime tt <= starttime tr) /\
    sampling_rate tt = sampling_rate t0 /\
    npts tt = npts t0.
Proof.
  intros Hne Hsame. unfold stack_call. cbn [map].
  destruct (py_min_least (starttime t0) (map starttime rest))
    as [m [Hm [Hin Hle]]].
  rewrite Hm. cbn [bind].
  destruct (stack_on_survivors (t0 :: rest) (sampling_rate t0) m (npts t0)
              stdup stddown Hne Hsame) as [tdat [Hs _]].
  rewrite Hs. eexists. split; [reflexivity|]. cbn [starttime sampling_rate npts].
  repeat split; try exact Hin.
  intros tr Htr. apply Hle. change (In (starttime tr) (map starttime (t0 :: rest))).
  now apply in_map.
Qed.

Lemma composite_header_from_input_witness :
  exists tt,
    stack_call three_channels (3 / 2) (1 / 5)
    = Ok (tt, [two_samples 5 2; two_samples 7 4]) /\
    starttime tt <= 0 /\ sampling_rate tt = 1 /\ npts tt = 2%Z.
Proof.
  destruct (composite_header_from_input (two_samples 5 2)
              [two_samples 7 4; two_samples 0 12] (3 / 2) (1 / 5))
    as [tt [Hs [_ [Hle [Hsr Hn]]]]].
  - change (survivors three_channels (3 / 2) (1 / 5) <> []).
    rewrite three_channels_survivors. discriminate.
  - change (same_length (map data (survivors three_channels (3 / 2) (1 / 5)))
            = true).
    rewrite three_channels_survivors. reflexivity.
  - change (survivors _ (3 / 2) (1 / 5))
      with (survivors three_channels (3 / 2) (1 / 5)) in Hs.
    rewrite three_channels_survivors in Hs.
    exists tt. split; [exact Hs|]. split; [|split; assumption].
    apply (Hle (two_samples 0 12)). right. right. now left.
Defined.

(** The composite of the three sample channels. *)
Lemma three_channels_stack_call :
  exists tdat,
    stack_call three_channels (3 / 2) (1 / 5)
    = Ok (mkTrace "XX"%string "STACK"%string "BH"%string 0 1 2%Z tdat,
          survivors three_channels (3 / 2) (1 / 5)).
Proof.
  assert (Hmin : py_min (map starttime three_channels) = Ok 0).
  { unfold py_min, three_channels. cbn [map starttime two_samples fold_left].
    decide_reals. reflexivity. }
  destruct (stack_on_survivors three_channels 1 0 2 (3 / 2) (1 / 5))
    as [tdat [Hs _]].
  - rewrite three_channels_survivors. discriminate.
  - rewrite three_channels_survivors. reflexivity.
  - exists tdat. unfold stack_call. rewrite Hmin. cbn [bind three_channels].
    cbn [sampling_rate npts two_samples]. exact Hs.
Qed.

(** C8, as stated, fails: the earliest channel is removed as an outlier and
    the composite still starts at its start time, 0, while the survivors
    start at 5 and 7. *)
Lemma composite_start_of_removed_trace :
  exists tt,
    stack_call three_channels (3 / 2) (1 / 5)
    = Ok (tt, survivors three_channels (3 / 2) (1 / 5)) /\
    py_min (map starttime (survivors three_channels (3 / 2) (1 / 5))) = Ok 5 /\
    starttime tt = 0 /\
    starttime tt <> 5.
Proof.
  destruct three_channels_stack_call as [tdat Hs].
  eexists. split; [exact Hs|]. split; [|split].
  - rewrite three_channels_survivors. unfold py_min.
    cbn [map starttime two_samples fold_left]. decide_reals. reflexivity.
  - reflexivity.
  - cbn [starttime]. lra.
Qed.

End StackerHeader.

Section StackerFailure.

Import Stacker StackerSpec Samples.
Local Open Scope R_scope.

(** With no survivor [stack] divides by a zero count. *)
Lemma stack_no_survivor (stall : stream) (df tstart : R) (npts : Z)
    (stdup stddown : R) :
  survivors stall stdup stddown = [] ->
  stack stall df tstart npts stdup stddown = Raise ZeroDivisionError.
Proof.
  intros H. unfold stack. rewrite remove_outliers_filter, H. reflexivity.
Qed.

Lemma stack_call_no_survivor (stall : stream) (stdup stddown : R) :
  survivors stall stdup stddown = [] ->
  exists e, stack_call stall stdup stddown = Raise e.
Proof.
  intros H. unfold stack_call. destruct stall as [|t0 rest].
  - exists ValueError. reflexivity.
  - destruct (py_min_least (starttime t0) (map starttime rest)) as [m [Hm _]].
    cbn [map]. rewrite Hm. cbn [bind].
    exists ZeroDivisionError. now apply stack_no_survivor.
Qed.

Lemma run_units_stops (before after : list unit_input) (u : unit_input)
    (e : exn) :
  Forall (fun p => exists r,
            stack_call (unit_stall p) (unit_stdup p) (unit_stddown p) = Ok r)
         before ->
  stack_call (unit_stall u) (unit_stdup u) (unit_stddown u) = Raise e ->
  run_units (before ++ u :: after) = Raise e.
Proof.
  intros Hb Hu. induction Hb as [|p before [r Hp] _ IH]; cbn [app run_units].
  - now rewrite Hu.
  - rewrite Hp. cbn [bind]. now rewrite IH.
Qed.

(** C7 (amended): when the filter removes every trace, [stack] raises and
    gives no composite; the script catches nothing, so the run ends at that
    unit, whatever units follow. *)
Theorem all_removed_ends_run (before after : list unit_input)
    (u : unit_input) :
  survivors (unit_stall u) (unit_stdup u) (unit_stddown u) = [] ->
  Forall (fun p => exists r,
            stack_call (unit_stall p) (unit_stdup p) (unit_stddown p) = Ok r)
         before ->
  (forall df tstart npts,
      stack (unit_stall u) df tstart npts (unit_stdup u) (unit_stddown u)
      = Raise ZeroDivisionError) /\
  exists e,
    stack_call (unit_stall u) (unit_stdup u) (unit_stddown u) = Raise e /\
    run_units (before ++ u :: after) = Raise e.
Proof.
  intros Hs Hb. split.
  - intros df tstart npts. now apply stack_no_survivor.
  - destruct (stack_call_no_survivor _ _ _ Hs) as [e He].
    exists e. split; [exact He|]. now apply run_units_stops.
Qed.

Lemma dead_channel_survivors : survivors dead_channel (3 / 2) (1 / 5) = [].
Proof.
  unfold survivors, removed, avgStd, dead_channel. cbn [map filter].
  rewrite !std_abs_two_samples by lra.
  unfold nanmean_x, Bn.nanmean, Bn.mean. cbn.
  decide_reals. reflexivity.
Qed.

Lemma good_unit_runs :
  exists r, stack_call (unit_stall good_unit) (unit_stdup good_unit)
              (unit_stddown good_unit) = Ok r.
Proof.
  destruct three_channels_stack_call as [tdat H].
  eexists. exact H.
Qed.

End StackerFailure.

Section StackerFailureClaims.

Import Stacker StackerSpec Samples.
Local Open Scope R_scope.

Lemma all_removed_ends_run_witness :
  exists e, run_units ([good_unit] ++ dead_unit :: [good_unit]) = Raise e.
Proof.
  destruct (all_removed_ends_run [good_unit] [good_unit] dead_unit)
    as [_ [e [_ He]]].
  - exact dead_channel_survivors.
  - constructor; [exact good_unit_runs | constructor].
  - exists e. exact He.
Defined.

(** C7, as stated, fails: after the unit whose channels are all removed the
    batch does not go on to the next unit, which would have stacked. *)
Lemma run_does_not_continue :
  run_units [dead_unit; good_unit] = Raise ZeroDivisionError /\
  exists r, run_units [good_unit] = Ok r.
Proof.
  split.
  - cbn [run_units]. unfold stack_call.
    cbn [dead_unit unit_stall unit_stdup unit_stddown dead_channel map
         starttime two_samples py_min fold_left bind sampling_rate npts].
    change [two_samples 0 0] with dead_channel.
    now rewrite (stack_no_survivor _ _ _ _ _ _ dead_channel_survivors).
  - destruct good_unit_runs as [r Hr]. cbn [run_units]. rewrite Hr.
    eexists. reflexivity.
Qed.

End StackerFailureClaims.

(** ** The alignment loop *)

Section AlignmentProofs.

Import Stacker Alignment AlignmentSpec Samples.
Local Open Scope R_scope.







End AlignmentProofs.

Section AlignmentClaims.

Import Stacker Alignment AlignmentSpec Samples.
Local Open Scope R_scope.



End AlignmentClaims.

(** ** The rejection of magnitude outliers *)

Section MagnitudeProofs.

Import Np Magnitude MagnitudeSpec.
Local Open Scope Q_scope.

(** Gathering an array at the indices a test selects is filtering it. *)
Lemma take_selected {B : Type} (g : Q -> B) (P : B -> bool) :
  forall l before : list Q,
    map (fun i => nth i (before ++ l) 0)
      (map fst
         (filter (fun p => P (snd p))
            (combine (seq (length before) (length l)) (map g l))))
    = filter (fun v => P (g v)) l.
Proof.
  induction l as [|a l IH]; intros before; [reflexivity|].
  cbn [length seq map combine filter snd].
  specialize (IH (before ++ [a])).
  rewrite <- app_assoc, length_app in IH. cbn [app length] in IH.
  rewrite Nat.add_1_r in IH.
  destruct (P (g a)); cbn [map fst].
  - rewrite IH. f_equal. rewrite app_nth2, Nat.sub_diag by lia. reflexivity.
  - exact IH.
Qed.

Lemma take_nonzero (a : list Q) :
  take a (nonzero a) = filter (fun v => negb (Qeq_bool v 0)) a.
Proof.
  unfold take, nonzero, enumerate.
  pose proof (take_selected (fun v => v) (fun v => negb (Qeq_bool v 0)) a [])
    as H.
  rewrite map_id in H. exact H.
Qed.

Lemma take_where_le (f : Q -> Q) (a : list Q) (m : Q) :
  take a (where_le (map f a) m) = filter (fun v => Qle_bool (f v) m) a.
Proof.
  unfold take, where_le, enumerate. rewrite length_map.
  exact (take_selected f (fun s => Qle_bool s m) a []).
Qed.

Lemma put_everywhere (v : Q) :
  forall l before : list Q,
    fold_left (fun acc i => set_nth acc i v)
      (seq (length before) (length l)) (before ++ l)
    = before ++ map (fun _ => v) l.
Proof.
  induction l as [|a l IH]; intros before; [reflexivity|].
  cbn [length seq fold_left map].
  assert (Hset : set_nth (before ++ a :: l) (length before) v
                 = before ++ v :: l).
  { clear. induction before as [|b before IH]; [reflexivity|].
    cbn [app length set_nth]. now rewrite IH. }
  rewrite Hset. specialize (IH (before ++ [v])).
  rewrite <- !app_assoc, length_app in IH. cbn [app length] in IH.
  rewrite Nat.add_1_r in IH. exact IH.
Qed.

Lemma take_arange (a : list Q) : take a (arange (length a)) = a.
Proof.
  unfold take, arange.
  assert (H : forall l before : list Q,
             map (fun i => nth i (before ++ l) 0)
               (seq (length before) (length l)) = l).
  { induction l as [|x l IH]; intros before; [reflexivity|].
    cbn [length seq map]. rewrite app_nth2, Nat.sub_diag by lia.
    cbn [nth]. f_equal. specialize (IH (before ++ [x])).
    rewrite <- app_assoc, length_app in IH. cbn [app length] in IH.
    now rewrite Nat.add_1_r in IH. }
  exact (H a []).
Qed.

(** [reject_moutliers] computes the rejector of the specification. *)
Lemma reject_moutliers_refines (data : list Q) (m : Q) :
  reject_moutliers data m = outlier_rejector data m.
Proof.
  unfold reject_moutliers, outlier_rejector. rewrite take_nonzero.
  set (rest := filter (fun v => negb (Qeq_bool v 0)) data).
  destruct (median rest) as [med|]; [|reflexivity].
  destruct (median (map (fun v => Qabs (v - med)) rest)) as [mad|];
    [|reflexivity].
  destruct (Qeq_bool (2 * mad) 0).
  - replace (length (nonzero data)) with (length rest).
    + pose proof (put_everywhere med rest []) as Hput.
      cbn [app length] in Hput. unfold put, arange at 1. rewrite Hput.
      rewrite <- (length_map (fun _ : Q => med) rest).
      apply take_arange.
    + unfold rest. rewrite <- take_nonzero. unfold take.
      now rewrite length_map.
  - rewrite map_map. apply (take_where_le _ rest m).
Qed.

(** C5: [reject_moutliers] drops the zeros, takes the median and twice the
    median absolute deviation, keeps the values within [m] scaled
    deviations of the median, and turns every value into the median when
    [mdev] is zero; on the magnitudes 2.0, 2.1, 2.05, 5.0, 0 with [m = 1]
    it keeps 2.0, 2.1, 2.05, and the combined magnitude is 2.05. *)
Theorem reject_moutliers_is_outlier_rejector :
  (forall data m, reject_moutliers data m = outlier_rejector data m) /\
  reject_moutliers [2; 21 # 10; 205 # 100; 5; 0] 1 = [2; 21 # 10; 205 # 100] /\
  (exists q, combined_magnitude [2; 21 # 10; 205 # 100; 5; 0] = Fin q /\
             q == 205 # 100).
Proof.
  split; [exact reject_moutliers_refines|]. split; [reflexivity|].
  eexists. split; reflexivity.
Qed.

End MagnitudeProofs.

(** ** The validation of a trigger *)

Section ValidatorProofs.

Import Np Validator ValidatorSpec Samples.
Local Open Scope Z_scope.


Lemma count_above_nonneg (level : Q) (a : list Q) : 0 <= count_above level a.
Proof. unfold count_above, len. lia. Qed.




End ValidatorProofs.

Section WindowProofs.

Import Np Validator ValidatorSpec Samples.
Local Open Scope Z_scope.

Lemma py_max_nonempty (a : list Q) : a <> [] -> exists m, py_max a = Ok m.
Proof.
  destruct a as [|v rest]; [congruence|]. intros _. eexists. reflexivity.
Qed.





(** A short trace shows the other outcome of the negative index: the slice
    [data[-1:4]] of three samples holds the last sample only. *)
Lemma window_of_short_trace :
  search_window weak_channel 1 2 = [1 # 10]%Q /\
  clipped_window weak_channel 1 2 = [1 # 10; 2 # 10; 1 # 10]%Q.
Proof. split; reflexivity. Qed.

End WindowProofs.

(** * Further properties of the code *)

(** ** The strided view and the range of the coefficients *)

Section XCorrRange.

Local Open Scope R_scope.

Lemma window_at_length (a : list R) (window i : nat) :
  (i + window <= length a)%nat -> length (window_at a window i) = window.
Proof.
  intros H. unfold window_at. rewrite length_firstn, length_skipn. lia.
Qed.

(** The inequality of Cauchy and Schwarz on two arrays. *)
Lemma cauchy_schwarz (u : list R) :
  forall v : list R,
    Bn.sum (mul_arrays u v) * Bn.sum (mul_arrays u v)
    <= Bn.sum (map (fun x => x * x) u) * Bn.sum (map (fun x => x * x) v).
Proof.
  induction u as [|a u IH]; intros v.
  - cbn. pose proof (sum_squares_nonneg v). lra.
  - destruct v as [|b v].
    + cbn [mul_arrays map Bn.sum fold_right].
      pose proof (sum_squares_nonneg (a :: u)).
      cbn [map Bn.sum fold_right] in H. lra.
    + cbn [mul_arrays map Bn.sum fold_right].
      specialize (IH v).
      pose proof (sum_squares_nonneg u) as HA.
      pose proof (sum_squares_nonneg v) as HB.
      fold (Bn.sum (mul_arrays u v)).
      fold (Bn.sum (map (fun x => x * x) u)).
      fold (Bn.sum (map (fun x => x * x) v)).
      set (C := Bn.sum (mul_arrays u v)) in *.
      set (A := Bn.sum (map (fun x => x * x) u)) in *.
      set (B := Bn.sum (map (fun x => x * x) v)) in *.
      clearbody A B C.
      assert (Hsq : (2 * a * b * C) * (2 * a * b * C)
                    <= (a * a * B + A * b * b) * (a * a * B + A * b * b)).
      { assert (H1 : 0 <= (a * a * B - A * b * b) * (a * a * B - A * b * b))
          by exact (Rle_0_sqr _).
        assert (H2 : 0 <= (a * b) * (a * b) * (A * B - C * C)).
        { apply Rmult_le_pos; [exact (Rle_0_sqr _) | lra]. }
        assert (E : (a * a * B + A * b * b) * (a * a * B + A * b * b)
                    - (2 * a * b * C) * (2 * a * b * C)
                    = (a * a * B - A * b * b) * (a * a * B - A * b * b)
                      + 4 * ((a * b) * (a * b) * (A * B - C * C))) by ring.
        lra. }
      assert (Hpos : 0 <= a * a * B + A * b * b).
      { assert (0 <= a * a * B)
          by (apply Rmult_le_pos; [exact (Rle_0_sqr _) | exact HB]).
        assert (0 <= A * b * b)
          by (rewrite Rmult_assoc; apply Rmult_le_pos;
              [exact HA | exact (Rle_0_sqr _)]).
        lra. }
      assert (Hle : 2 * a * b * C <= a * a * B + A * b * b).
      { destruct (Rle_dec (2 * a * b * C) (a * a * B + A * b * b)) as [?|Hn];
          [assumption|]. exfalso. apply Rnot_le_lt in Hn.
        assert (Hlt : (a * a * B + A * b * b) * (a * a * B + A * b * b)
                      < (2 * a * b * C) * (2 * a * b * C)).
        { apply Rmult_le_0_lt_compat; assumption. }
        lra. }
      replace ((a * b + C) * (a * b + C))
        with (a * a * (b * b) + 2 * a * b * C + C * C) by ring.
      replace ((a * a + A) * (b * b + B))
        with (a * a * (b * b) + (a * a * B + A * b * b) + A * B) by ring.
      lra.
Qed.

Lemma std_nonneg (l : list R) : 0 <= Bn.std l.
Proof. apply sqrt_pos. Qed.

(** The coefficient of a full window lies between -1 and 1. *)
Lemma xcorr_at_range (y row : list R) :
  y <> [] -> length row = length y ->
  exists r, xcorr_at y row = Num r /\ -1 <= r <= 1.
Proof.
  intros Hy Hlen.
  assert (Hrow : row <> []) by (destruct row, y; simpl in *; congruence).
  unfold xcorr_at, xcorr_den, xcorr_num, Bn.nansum, Bn.nanstd.
  destruct y as [|y0 y']; [congruence|]. destruct row as [|r0 row'];
    [congruence|].
  set (y := y0 :: y') in *. set (row := r0 :: row') in *.
  cbn [xmul xis_zero xdiv].
  set (den := INR (length y) * Bn.std row * Bn.std y).
  set (num := Bn.sum (mul_arrays (Bn.centered y) (Bn.centered row))).
  destruct (Reqb den 0) eqn:Hz.
  - exists 0. split; [reflexivity | lra].
  - exists (num / den). split; [reflexivity|].
    assert (Hden : den <> 0).
    { intros E. rewrite (Reqb_true _ _ E) in Hz. discriminate. }
    assert (Hd0 : 0 <= den).
    { unfold den. apply Rmult_le_pos; [apply Rmult_le_pos|];
        [apply pos_INR | apply std_nonneg | apply std_nonneg]. }
    assert (Hsq : num * num <= den * den).
    { replace (den * den)
        with ((INR (length y) * Bn.std y * Bn.std y)
              * (INR (length row) * Bn.std row * Bn.std row))
        by (unfold den; rewrite Hlen; ring).
      rewrite (length_std_std y Hy), (length_std_std row Hrow).
      apply cauchy_schwarz. }
    assert (Hpos : 0 < den) by lra.
    split.
    + apply Rmult_le_reg_r with den; [exact Hpos|].
      unfold Rdiv. rewrite Rmult_assoc, Rinv_l by exact Hden. nra.
    + apply Rmult_le_reg_r with den; [exact Hpos|].
      unfold Rdiv. rewrite Rmult_assoc, Rinv_l by exact Hden. nra.
Qed.

(** X2: with a template of at least one sample, every coefficient [xcorr]
    returns is a finite number between -1 and 1. *)
Theorem xcorr_coefficients_in_range (x y : list R) :
  y <> [] ->
  (length y <= length x + 1)%nat ->
  exists c,
    xcorr x y = Ok c /\
    Forall (fun v => exists r, v = Num r /\ -1 <= r <= 1) c.
Proof.
  intros Hy H. eexists. split; [apply (xcorr_rows x y H)|].
  apply Forall_forall. intros v Hv.
  apply in_map_iff in Hv as [i [<- Hi]]. apply in_seq in Hi.
  apply xcorr_at_range; [exact Hy|].
  apply window_at_length. lia.
Qed.

Lemma xcorr_coefficients_in_range_witness :
  exists c,
    xcorr [5; 0; 1; 7] [0; 1] = Ok c /\
    Forall (fun v => exists r, v = Num r /\ -1 <= r <= 1) c.
Proof.
  apply (xcorr_coefficients_in_range [5; 0; 1; 7] [0; 1]).
  - discriminate.
  - simpl. lia.
Defined.

End XCorrRange.

(** ** Gain and offset of the continuous record *)

Section XCorrGain.

Local Open Scope R_scope.

Lemma sum_rescale (gain offset : R) (l : list R) :
  Bn.sum (rescale gain offset l) = gain * Bn.sum l + offset * INR (length l).
Proof.
  induction l as [|v l IH]; [cbn; ring|].
  cbn [rescale map Bn.sum fold_right length].
  fold (rescale gain offset l). fold (Bn.sum (rescale gain offset l)).
  fold (Bn.sum l). rewrite IH, S_INR. ring.
Qed.

Lemma centered_rescale (gain offset : R) (l : list R) :
  Bn.centered (rescale gain offset l)
  = map (fun v => gain * v) (Bn.centered l).
Proof.
  destruct l as [|v0 l']; [reflexivity|]. set (l := v0 :: l').
  assert (Hn : INR (length l) <> 0) by (apply not_0_INR; discriminate).
  assert (Hm : Bn.mean (rescale gain offset l) = gain * Bn.mean l + offset).
  { unfold Bn.mean. rewrite sum_rescale. unfold rescale.
    rewrite length_map. now field. }
  unfold Bn.centered. rewrite Hm. unfold rescale. rewrite !map_map.
  apply map_ext. intros v. ring.
Qed.

Lemma sum_mul_scaled (gain : R) (u : list R) :
  forall v : list R,
    Bn.sum (mul_arrays u (map (fun w => gain * w) v))
    = gain * Bn.sum (mul_arrays u v).
Proof.
  induction u as [|a u IH]; intros [|b v]; cbn [map mul_arrays]; try (cbn; ring).
  cbn [Bn.sum fold_right]. fold (Bn.sum (mul_arrays u (map (fun w => gain * w) v))).
  fold (Bn.sum (mul_arrays u v)). rewrite IH. ring.
Qed.

Lemma sum_squares_scaled (gain : R) (l : list R) :
  Bn.sum (map (fun v => v * v) (map (fun w => gain * w) l))
  = gain * gain * Bn.sum (map (fun v => v * v) l).
Proof.
  induction l as [|a l IH]; [cbn; ring|].
  cbn [map Bn.sum fold_right].
  fold (Bn.sum (map (fun v => v * v) (map (fun w => gain * w) l))).
  fold (Bn.sum (map (fun v => v * v) l)). rewrite IH. ring.
Qed.

Lemma std_rescale (gain offset : R) (l : list R) :
  0 < gain -> Bn.std (rescale gain offset l) = gain * Bn.std l.
Proof.
  intros Hg. unfold Bn.std.
  assert (Hv : Bn.var (rescale gain offset l) = gain * gain * Bn.var l).
  { unfold Bn.var. rewrite centered_rescale. unfold Bn.mean.
    rewrite sum_squares_scaled, !length_map. unfold Rdiv. ring. }
  rewrite Hv, sqrt_mult by (try apply var_nonneg; nra).
  rewrite sqrt_square by lra. reflexivity.
Qed.

Lemma window_at_rescale (gain offset : R) (x : list R) (window i : nat) :
  window_at (rescale gain offset x) window i
  = rescale gain offset (window_at x window i).
Proof.
  unfold window_at, rescale. now rewrite skipn_map, firstn_map.
Qed.

Lemma xcorr_at_rescale (gain offset : R) (y row : list R) :
  0 < gain -> xcorr_at y (rescale gain offset row) = xcorr_at y row.
Proof.
  intros Hg. destruct row as [|r0 row']; [reflexivity|].
  set (row := r0 :: row').
  unfold xcorr_at, xcorr_den, xcorr_num, Bn.nansum.
  rewrite centered_rescale, sum_mul_scaled.
  assert (Hs : Bn.nanstd (rescale gain offset row)
               = Num (gain * Bn.std row)).
  { unfold Bn.nanstd at 1. cbn [rescale row map].
    fold (rescale gain offset row'). f_equal.
    exact (std_rescale gain offset row Hg). }
  assert (Hr : Bn.nanstd row = Num (Bn.std row)) by reflexivity.
  rewrite Hs, Hr.
  destruct y as [|y0 y']; [reflexivity|]. set (y := y0 :: y').
  assert (Hy : Bn.nanstd y = Num (Bn.std y)) by reflexivity.
  rewrite Hy. cbn [xmul xis_zero xdiv].
  set (sy := Bn.std y).
  set (M := INR (length y)). set (s := Bn.std row).
  destruct (Req_dec_T (M * s * sy) 0) as [E|E].
  - rewrite (Reqb_true (M * s * sy) 0 E).
    rewrite (Reqb_true (M * (gain * s) * sy) 0); [reflexivity|].
    replace (M * (gain * s) * sy) with (gain * (M * s * sy)) by ring.
    rewrite E. ring.
  - rewrite (Reqb_false (M * s * sy) 0 E).
    assert (E' : M * (gain * s) * sy <> 0).
    { replace (M * (gain * s) * sy) with (gain * (M * s * sy)) by ring.
      apply Rmult_integral_contrapositive. split; [lra | exact E]. }
    rewrite (Reqb_false _ 0 E'). f_equal.
    assert (HM : M <> 0) by (intros Z; apply E; rewrite Z; ring).
    assert (Hs0 : s <> 0) by (intros Z; apply E; rewrite Z; ring).
    assert (Hsy : sy <> 0) by (intros Z; apply E; rewrite Z; ring).
    field. repeat split; try assumption; lra.
Qed.

(** X4: a positive gain and an offset applied to the continuous record
    change no coefficient: [xcorr] sees the shape of the record only. *)
Theorem xcorr_gain_offset (gain offset : R) (x y : list R) :
  0 < gain -> xcorr (rescale gain offset x) y = xcorr x y.
Proof.
  intros Hg.
  destruct (le_lt_dec (length y) (length x + 1)) as [H|H].
  - rewrite (xcorr_rows x y H).
    rewrite xcorr_rows by (unfold rescale; now rewrite length_map).
    unfold rescale at 2. rewrite length_map. f_equal.
    apply map_ext. intros i. rewrite window_at_rescale.
    now apply xcorr_at_rescale.
  - unfold xcorr. rewrite !rolling_window_raises;
      [reflexivity | exact H | unfold rescale; now rewrite length_map].
Qed.

Lemma xcorr_gain_offset_witness :
  xcorr (rescale 2 3 [5; 0; 1; 7]) [0; 1] = xcorr [5; 0; 1; 7] [0; 1].
Proof.
  apply xcorr_gain_offset. lra.
Defined.

End XCorrGain.

(** ** More on the stacker *)

Section StackerMore.

Import Stacker StackerSpec Samples.
Local Open Scope R_scope.

Lemma mean_constant (s : R) (l : list R) :
  l <> [] -> Forall (fun x => x = s) l -> Bn.mean l = s.
Proof.
  intros Hne Hall. unfold Bn.mean.
  assert (Hsum : Bn.sum l = s * INR (length l)).
  { clear Hne. induction Hall as [|x l Hx _ IH]; [cbn; ring|].
    cbn [Bn.sum fold_right length]. fold (Bn.sum l).
    rewrite IH, Hx, S_INR. ring. }
  rewrite Hsum. field. apply not_0_INR. destruct l; [congruence|discriminate].
Qed.

(** The mean deviation of channels that all have the deviation [s]. *)
Lemma avgStd_constant (s : R) (stall : stream) :
  stall <> [] ->
  Forall (fun tr => std_abs tr = Num s) stall ->
  avgStd stall = Num s.
Proof.
  intros Hne Hall. unfold avgStd, nanmean_x.
  assert (Hf : finite_part (map std_abs stall) = map (fun _ => s) stall).
  { clear Hne. induction Hall as [|tr l Htr _ IH]; [reflexivity|].
    cbn [map finite_part flat_map]. rewrite Htr. cbn [app].
    f_equal. exact IH. }
  rewrite Hf. destruct stall as [|t0 rest]; [congruence|].
  cbn [map Bn.nanmean]. f_equal.
  apply (mean_constant s (s :: map (fun _ => s) rest)); [discriminate|].
  constructor; [reflexivity|]. apply Forall_forall.
  intros x Hx. apply in_map_iff in Hx as [? [<- _]]. reflexivity.
Qed.

(** X5: a stream whose channels all have a zero deviation of the absolute
    samples (flat or dead channels) leaves no survivor, whatever the two
    multipliers: [stack] raises. *)
Theorem stack_flat_channels_raise (stall : stream) (df tstart : R) (npts : Z)
    (stdup stddown : R) :
  Forall (fun tr => std_abs tr = Num 0) stall ->
  stack stall df tstart npts stdup stddown = Raise ZeroDivisionError.
Proof.
  intros Hall. apply stack_no_survivor.
  destruct stall as [|t0 rest]; [reflexivity|].
  assert (Havg : avgStd (t0 :: rest) = Num 0)
    by (apply avgStd_constant; [discriminate | exact Hall]).
  unfold survivors, removed. rewrite Havg.
  rewrite Forall_forall in Hall.
  generalize (fun tr => Hall tr). generalize (t0 :: rest) at 1 2 as l.
  induction l as [|tr l IH]; intros Hl; [reflexivity|].
  cbn [filter]. rewrite (Hl tr (or_introl eq_refl)).
  cbn [xmul xgeb xleb]. rewrite (Rleb_true (0 * stdup) 0) by lra.
  cbn [orb negb]. apply IH. intros tr' Htr'. apply Hl. now right.
Qed.

Lemma stack_flat_channels_raise_witness :
  stack dead_channel 1 0 2 (3 / 2) (1 / 5) = Raise ZeroDivisionError.
Proof.
  apply stack_flat_channels_raise.
  constructor; [|constructor].
  rewrite std_abs_two_samples by lra. f_equal. field.
Defined.




End StackerMore.

(** ** More on the validation of a trigger *)

Section ValidatorTiers.

Import Np Validator ValidatorSpec Samples.
Local Open Scope Z_scope.

Lemma check_channels_length (trigger_sample tol : Z) :
  forall (stall : stream) (checks : list channel_check),
    check_channels trigger_sample tol stall = Ok checks ->
    length checks = length stall.
Proof.
  induction stall as [|t stall IH]; intros checks H; cbn [check_channels] in H.
  - injection H as <-. reflexivity.
  - destruct (check_channel trigger_sample tol t) as [c|e]; cbn [bind] in H;
      [|discriminate].
    destruct (check_channels trigger_sample tol stall) as [cs|e];
      cbn [bind] in H; [|discriminate].
    injection H as <-. cbn [length]. f_equal. now apply IH.
Qed.

(** A higher level is exceeded by fewer entries. *)
Lemma count_above_antitone (low high : Q) (a : list Q) :
  (low <= high)%Q -> count_above high a <= count_above low a.
Proof.
  intros Hle. unfold count_above, len. apply inj_le.
  induction a as [|v a IH]; [reflexivity|]. cbn [filter].
  unfold Qltb in *.
  destruct (Qle_bool v high) eqn:Hh; cbn [negb].
  - destruct (negb (Qle_bool v low)); cbn [length]; lia.
  - assert (Hl : Qle_bool v low = false).
    { destruct (Qle_bool v low) eqn:Hl; [|reflexivity].
      apply Qle_bool_iff in Hl.
      assert (Hc : Qle_bool v high = true)
        by (apply Qle_bool_iff; eapply Qle_trans; eassumption).
      congruence. }
    rewrite Hl. cbn [negb length]. lia.
Qed.

Lemma count_above_le_length (level : Q) (a : list Q) :
  count_above level a <= len a.
Proof.
  unfold count_above, len. apply inj_le, filter_length_le.
Qed.

(** X9: in whatever [csc] returns, the counts at the four confidence
    levels are ordered, [nch09 <= nch07 <= nch05 <= nch03]; the result is
    either the values of the [else] branch with no diagnostic, or counts
    of at most the number of channels, [nch] of at least [nch_min], and one
    diagnostic for every channel. *)
Theorem csc_counts_ordered (stall stCC : stream) (trg : trigger) (tstda : Q)
    (sample_tol : Z) (cc_threshold : Q) (nch_min : Z)
    (st : statistics) (lines : list diagnostic) :
  csc stall stCC trg tstda sample_tol cc_threshold nch_min = Ok (st, lines) ->
  (nch09 st <= nch07 st /\ nch07 st <= nch05 st /\ nch05 st <= nch03 st) /\
  ((st = sentinel /\ lines = []) \/
   (nch_min <= nch st /\ 0 <= nch09 st /\ nch03 st <= len stall /\
    nch st <= len stall /\ length lines = length stall)).
Proof.
  unfold csc. intros H.
  destruct (trigger_sample_of stCC trg) as [ts|e]; cbn [bind] in H;
    [|discriminate].
  destruct (check_channels ts sample_tol stall) as [checks|e] eqn:Hc;
    cbn [bind] in H; [|discriminate].
  pose proof (check_channels_length _ _ _ _ Hc) as Hlen.
  destruct (Z.leb_spec nch_min (count_above cc_threshold (map max_sct checks)))
    as [Hge|Hlt].
  - destruct (float_div (mean (map max_sct checks)) tstda) as [c1|e];
      cbn [bind] in H; [|discriminate].
    destruct (float_div (mean (map max_trg checks)) tstda) as [c2|e];
      cbn [bind] in H; [|discriminate].
    injection H as <- <-.
    cbn [nch nch03 nch05 nch07 nch09].
    split.
    + repeat split; apply count_above_antitone; discriminate.
    + right. repeat split.
      * exact Hge.
      * apply count_above_nonneg.
      * rewrite <- (length_map max_sct) in Hlen. unfold len.
        rewrite <- Hlen. apply count_above_le_length.
      * rewrite <- (length_map max_sct) in Hlen. unfold len.
        rewrite <- Hlen. apply count_above_le_length.
      * now rewrite length_map.
  - injection H as <- <-. split; [cbn; lia | now left].
Qed.

Lemma csc_counts_ordered_witness :
  exists st lines,
    csc [ten_samples] [ten_samples] (mkTrigger 4%Q) (1 # 20) 2 (-1 # 10) 1
    = Ok (st, lines) /\
    nch09 st <= nch03 st /\ length lines = 1%nat.
Proof.
  eexists. eexists. split; [reflexivity|].
  destruct (csc_counts_ordered [ten_samples] [ten_samples] (mkTrigger 4%Q)
              (1 # 20) 2 (-1 # 10) 1 _ _ eq_refl) as [[H1 [H2 H3]] _].
  split; [|reflexivity]. lia.
Defined.

End ValidatorTiers.

Section ValidatorPeak.

Import Np Validator ValidatorSpec Samples.
Local Open Scope Z_scope.

(** The greatest entry: it is an entry, and no entry exceeds it. *)
Lemma fold_max_spec (rest : list Q) :
  forall v : Q,
    let m := fold_left (fun m w => if Qltb m w then w else m) rest v in
    In m (v :: rest) /\ forall w, In w (v :: rest) -> (w <= m)%Q.
Proof.
  induction rest as [|b rest IH]; intros v; cbn [fold_left].
  - split; [now left|]. intros w [<-|[]]. apply Qle_refl.
  - specialize (IH (if Qltb v b then b else v)). cbv zeta in IH.
    destruct IH as [Hin Hle]. unfold Qltb in *.
    destruct (Qle_bool b v) eqn:Hb; cbn [negb] in *.
    + apply Qle_bool_iff in Hb. split.
      * destruct Hin as [<-|Hin]; [now left | right; now right].
      * intros w [<-|[<-|Hw]].
        -- apply Hle. now left.
        -- eapply Qle_trans; [exact Hb|]. apply Hle. now left.
        -- apply Hle. now right.
    + assert (Hvb : (v <= b)%Q).
      { destruct (Qlt_le_dec v b) as [H|H]; [now apply Qlt_le_weak|].
        apply Qle_bool_iff in H. congruence. }
      split.
      * destruct Hin as [<-|Hin]; [right; now left | right; now right].
      * intros w [<-|[<-|Hw]].
        -- eapply Qle_trans; [exact Hvb|]. apply Hle. now left.
        -- apply Hle. now left.
        -- apply Hle. now right.
Qed.

(** [np.argmax] points at the value [max] returns. *)
Lemma fold_argmax_spec (rest : list Q) :
  forall (before : list Q) (bi : nat) (bv : Q),
    (bi < length before)%nat ->
    nth bi (before ++ rest) 0%Q = bv ->
    let r := fold_left
               (fun (best : nat * Q) (p : nat * Q) =>
                  if Qltb (snd best) (snd p) then p else best)
               (combine (seq (length before) (length rest)) rest) (bi, bv) in
    (fst r < length (before ++ rest))%nat /\
    nth (fst r) (before ++ rest) 0%Q = snd r /\
    snd r = fold_left (fun m w => if Qltb m w then w else m) rest bv.
Proof.
  induction rest as [|b rest IH]; intros before bi bv Hbi Hnth;
    cbn [length seq combine fold_left].
  - cbn [fst snd]. rewrite length_app. repeat split; [lia | exact Hnth].
  - cbn [snd].
    assert (Happ : before ++ b :: rest = (before ++ [b]) ++ rest)
      by now rewrite <- app_assoc.
    assert (Hlen : length (before ++ [b]) = S (length before))
      by (rewrite length_app; cbn; lia).
    destruct (Qltb bv b).
    + specialize (IH (before ++ [b]) (length before) b).
      rewrite Hlen in IH. rewrite Happ. apply IH; [lia|].
      rewrite <- Happ, app_nth2, Nat.sub_diag by lia. reflexivity.
    + specialize (IH (before ++ [b]) bi bv).
      rewrite Hlen in IH. rewrite Happ. apply IH; [lia|].
      rewrite <- Happ. exact Hnth.
Qed.

Lemma max_and_argmax (w : list Q) :
  w <> [] ->
  exists m i,
    py_max w = Ok m /\ argmax w = Ok i /\
    (i < length w)%nat /\ nth i w 0%Q = m /\
    forall v, In v w -> (v <= m)%Q.
Proof.
  destruct w as [|v rest]; [congruence|]. intros _.
  pose proof (fold_max_spec rest v) as [_ Hle].
  pose proof (fold_argmax_spec rest [v] O v) as H.
  cbn [length app] in H. destruct H as [H1 [H2 H3]]; [lia | reflexivity|].
  eexists. eexists. split; [reflexivity|]. split; [reflexivity|].
  split; [exact H1|]. split; [now rewrite H2, H3 | exact Hle].
Qed.

End ValidatorPeak.

Section ValidatorInside.

Import Np Validator ValidatorSpec Samples.
Local Open Scope Z_scope.

Lemma one_sample_slice (a : list Q) (t : Z) :
  0 <= t < len a -> slice a t (t + 1) = [nth (Z.to_nat t) a 0%Q].
Proof.
  intros Ht. unfold slice, slice_index.
  destruct (Z.ltb_spec t 0); [lia|]. destruct (Z.ltb_spec (t + 1) 0); [lia|].
  rewrite !Z.min_l by lia. replace (Z.to_nat (t + 1 - t)) with 1%nat by lia.
  unfold len in Ht. assert (Hn : (Z.to_nat t < length a)%nat) by lia.
  clear Ht H H0. revert Hn. generalize (Z.to_nat t) as k. revert a.
  induction a as [|x a IH]; intros k Hk; [simpl in Hk; lia|].
  destruct k as [|k]; [reflexivity|]. cbn [skipn nth]. apply IH.
  simpl in Hk. lia.
Qed.

(** The window of a trigger sample at least [tol] samples after the start
    of the trace and within the trace. *)
Lemma search_window_inside (tsc : trace) (trigger_sample tol : Z) :
  0 <= tol -> tol <= trigger_sample -> trigger_sample < len (data tsc) ->
  let w := search_window tsc trigger_sample tol in
  (Z.to_nat tol < length w)%nat /\
  (length w <= Z.to_nat (2 * tol + 1))%nat /\
  forall j, (j < length w)%nat ->
    nth j w 0%Q = nth (Z.to_nat (trigger_sample - tol) + j) (data tsc) 0%Q.
Proof.
  intros H0 Hts Hlen. unfold search_window, slice, slice_index.
  destruct (Z.ltb_spec (trigger_sample - tol) 0); [lia|].
  destruct (Z.ltb_spec (trigger_sample + tol + 1) 0); [lia|].
  rewrite (Z.min_l (trigger_sample - tol)) by lia.
  cbv zeta. rewrite length_firstn, length_skipn. unfold len in *.
  repeat split; try lia.
  intros j Hj. rewrite nth_firstn.
  destruct (Nat.ltb_spec j
              (Z.to_nat (Z.min (trigger_sample + tol + 1)
                           (Z.of_nat (length (data tsc)))
                         - (trigger_sample - tol)))); [|lia].
  apply nth_skipn.
Qed.

(** X10: for a trigger sample at least [sample_tolerance] samples after the
    start of a channel and within it, the check of the channel succeeds:
    the exact value is the sample at the trigger, the peak is the greatest
    sample of the window and at least the exact value, and the peak sits
    [max_ind] samples before the trigger sample, at most [sample_tolerance]
    samples away. *)
Theorem check_channel_inside (tsc : trace) (trigger_sample tol : Z) :
  0 <= tol -> tol <= trigger_sample -> trigger_sample < len (data tsc) ->
  exists c i,
    check_channel trigger_sample tol tsc = Ok c /\
    max_trg c = nth (Z.to_nat trigger_sample) (data tsc) 0%Q /\
    (max_trg c <= max_sct c)%Q /\
    (forall v, In v (search_window tsc trigger_sample tol) ->
               (v <= max_sct c)%Q) /\
    max_ind c = (inject_Z tol - inject_Z i)%Q /\
    0 <= i <= 2 * tol /\
    nth (Z.to_nat (trigger_sample - tol + i)) (data tsc) 0%Q = max_sct c.
Proof.
  intros H0 Hts Hlen.
  destruct (search_window_inside tsc trigger_sample tol H0 Hts Hlen)
    as [Hlo [Hhi Hnth]].
  set (w := search_window tsc trigger_sample tol) in *.
  assert (Hw : w <> []) by (destruct w; [simpl in Hlo; lia | discriminate]).
  destruct (max_and_argmax w Hw) as [m [i [Hm [Hi [Hil [Him Hle]]]]]].
  eexists. exists (Z.of_nat i). split.
  { unfold check_channel. fold w. rewrite Hm, Hi. cbn [bind].
    rewrite one_sample_slice by lia. cbn [as_scalar bind]. reflexivity. }
  cbn [max_trg max_sct max_ind]. repeat split; try lia.
  - replace (nth (Z.to_nat trigger_sample) (data tsc) 0%Q)
      with (nth (Z.to_nat tol) w 0%Q).
    + apply Hle. apply nth_In. exact Hlo.
    + rewrite (Hnth _ Hlo). f_equal. lia.
  - exact Hle.
  - rewrite <- Him, (Hnth i Hil). f_equal. lia.
Qed.

Lemma check_channel_inside_witness :
  exists c,
    check_channel 4 2 ten_samples = Ok c /\ (max_trg c <= max_sct c)%Q.
Proof.
  destruct (check_channel_inside ten_samples 4 2) as [c [i [Hc [_ [Hle _]]]]];
    try lia.
  - vm_compute. reflexivity.
  - exists c. split; assumption.
Defined.

(** X11: a trigger sample at or after the end of a channel makes the check
    of that channel raise [ValueError], whatever the tolerance. *)
Theorem check_channel_past_end (tsc : trace) (trigger_sample tol : Z) :
  len (data tsc) <= trigger_sample ->
  check_channel trigger_sample tol tsc = Raise ValueError.
Proof.
  intros Hlen. unfold check_channel.
  destruct (search_window tsc trigger_sample tol) as [|v rest] eqn:Hw;
    [reflexivity|].
  cbn [py_max argmax bind].
  assert (Hs : slice (data tsc) trigger_sample (trigger_sample + 1) = []).
  { unfold slice, slice_index.
    assert (0 <= len (data tsc)) by (unfold len; lia).
    destruct (Z.ltb_spec trigger_sample 0); [lia|].
    destruct (Z.ltb_spec (trigger_sample + 1) 0); [lia|].
    rewrite !Z.min_r by lia. rewrite Z.sub_diag. reflexivity. }
  rewrite Hs. reflexivity.
Qed.

Lemma check_channel_past_end_witness :
  check_channel 10 2 ten_samples = Raise ValueError.
Proof.
  apply check_channel_past_end. vm_compute. discriminate.
Defined.

End ValidatorInside.

Section TriggerGate.

Import Np Validator ValidatorSpec Samples.
Local Open Scope Z_scope.

(** X14: with a minimum of at least two channels the test of the caller
    agrees with [csc]: a detection is written exactly when at least
    [nch_min] channels exceed the threshold, it carries that count and the
    index of its trigger, and a rejected trigger writes nothing. *)
Theorem trigger_gate_from_two (cfg : settings) (itrig : nat) (trg : trigger)
    (lines : list diagnostic) (r : option detection) :
  2 <= cfg_nch_min cfg ->
  trigger_body cfg itrig trg = Ok (lines, r) ->
  exists trigger_sample checks,
    trigger_sample_of (cfg_stCC cfg) trg = Ok trigger_sample /\
    check_channels trigger_sample (cfg_sample_tol cfg) (cfg_stall cfg)
    = Ok checks /\
    let n := count_above (cfg_cc_threshold cfg) (map max_sct checks) in
    (n < cfg_nch_min cfg -> r = None /\ lines = []) /\
    (cfg_nch_min cfg <= n ->
     exists d, r = Some d /\ det_nch d = n /\ det_itrig d = itrig /\
               length lines = length (cfg_stall cfg)).
Proof.
  intros Hmin H. unfold trigger_body, csc in H.
  destruct (trigger_sample_of (cfg_stCC cfg) trg) as [ts|e]; cbn [bind] in H;
    [|discriminate].
  destruct (check_channels ts (cfg_sample_tol cfg) (cfg_stall cfg))
    as [checks|e] eqn:Hc; cbn [bind] in H; [|discriminate].
  exists ts, checks. split; [reflexivity|]. split; [exact Hc|].
  cbv zeta.
  destruct (Z.leb_spec (cfg_nch_min cfg)
              (count_above (cfg_cc_threshold cfg) (map max_sct checks)))
    as [Hge|Hlt].
  - destruct (float_div (mean (map max_sct checks)) (cfg_tstda cfg))
      as [c1|e]; cbn [bind] in H; [|discriminate].
    destruct (float_div (mean (map max_trg checks)) (cfg_tstda cfg))
      as [c2|e]; cbn [bind] in H; [|discriminate].
    cbn [nch] in H.
    destruct (Z.leb_spec (cfg_nch_min cfg)
                (count_above (cfg_cc_threshold cfg) (map max_sct checks)));
      [|lia].
    injection H as <- <-. split; [lia|]. intros _.
    eexists. split; [reflexivity|]. cbn [det_nch det_itrig].
    repeat split. rewrite length_map.
    exact (check_channels_length _ _ _ _ Hc).
  - cbn [bind sentinel nch] in H.
    destruct (Z.leb_spec (cfg_nch_min cfg) 1); [lia|].
    injection H as <- <-. split; [tauto | lia].
Qed.

Lemma trigger_gate_from_two_witness :
  exists checks,
    check_channels 4 2 [ten_samples] = Ok checks /\
    trigger_body
      (mkSettings [ten_samples] [ten_samples] (1 # 20) 2 (5 # 10) 2 0 0
         (fun _ _ => [])) 0 (mkTrigger 4%Q)
    = Ok ([], None).
Proof.
  destruct (trigger_gate_from_two
              (mkSettings [ten_samples] [ten_samples] (1 # 20) 2 (5 # 10) 2 0 0
                 (fun _ _ => [])) 0 (mkTrigger 4%Q) [] None)
    as [ts [checks [Hts [Hc _]]]].
  - cbn. lia.
  - reflexivity.
  - cbn [cfg_stCC cfg_sample_tol cfg_stall] in Hts, Hc.
    assert (ts = 4) by (vm_compute in Hts; congruence). subst ts.
    exists checks. split; [exact Hc | reflexivity].
Defined.

End TriggerGate.

(** ** More on the rejection of magnitude outliers *)

Section MagnitudeMore.

Import Np Magnitude MagnitudeSpec.
Local Open Scope Q_scope.

Lemma In_insert (v x : Q) (l : list Q) :
  In x (insert v l) <-> x = v \/ In x l.
Proof.
  induction l as [|a l IH]; cbn [insert].
  - cbn. intuition.
  - destruct (Qle_bool v a); cbn [In]; [intuition|].
    rewrite IH. cbn [In]. intuition.
Qed.

Lemma In_sort (x : Q) (l : list Q) : In x (sort l) <-> In x l.
Proof.
  unfold sort. induction l as [|a l IH]; cbn [fold_right In]; [tauto|].
  rewrite In_insert, IH. intuition.
Qed.

Lemma length_insert (v : Q) (l : list Q) : length (insert v l) = S (length l).
Proof.
  induction l as [|a l IH]; cbn [insert]; [reflexivity|].
  destruct (Qle_bool v a); cbn [length]; [reflexivity | now rewrite IH].
Qed.

Lemma length_sort (l : list Q) : length (sort l) = length l.
Proof.
  unfold sort. induction l as [|a l IH]; cbn [fold_right length]; [reflexivity|].
  now rewrite length_insert, IH.
Qed.

(** The median of an array that is not empty is a number, and it is at
    least any lower bound of the entries. *)
Lemma median_defined (l : list Q) : l <> [] -> exists md, median l = Fin md.
Proof.
  intros Hne. unfold median. rewrite length_sort.
  destruct l as [|a l]; [congruence|]. cbn [length].
  destruct (Nat.even (S (length l))); eexists; reflexivity.
Qed.

Lemma median_lower_bound (c md : Q) (l : list Q) :
  (forall x, In x l -> c <= x) -> median l = Fin md -> c <= md.
Proof.
  intros Hc Hm. unfold median in Hm. rewrite length_sort in Hm.
  destruct l as [|a l]; [discriminate|].
  set (n := length (a :: l)) in *.
  assert (Hn : (0 < n)%nat) by (unfold n; cbn; lia).
  assert (Hin : forall i, (i < n)%nat -> c <= nth i (sort (a :: l)) 0).
  { intros i Hi. apply Hc, In_sort, nth_In. now rewrite length_sort. }
  assert (H2 : (n / 2 < n)%nat) by (apply Nat.div_lt; lia).
  assert (H1 : (n / 2 - 1 < n)%nat) by lia.
  pose proof (Hin _ H1) as B1. pose proof (Hin _ H2) as B2.
  destruct n as [|n']; [lia|].
  destruct (Nat.even (S n')); injection Hm as <-; [|exact B2].
  apply Qle_shift_div_l; [reflexivity|].
  change (c * 2 <= nth (S n' / 2 - 1) (sort (a :: l)) 0
                   + nth (S n' / 2) (sort (a :: l)) 0).
  lra.
Qed.

(** An entry of least deviation. *)
Lemma least_entry (f : Q -> Q) (l : list Q) :
  l <> [] -> exists x, In x l /\ forall y, In y l -> f x <= f y.
Proof.
  induction l as [|a l IH]; [congruence|]. intros _.
  destruct l as [|b l].
  - exists a. split; [now left|]. intros y [<-|[]]. apply Qle_refl.
  - destruct IH as [x [Hx Hle]]; [discriminate|].
    destruct (Qlt_le_dec (f a) (f x)) as [Hlt|Hge].
    + exists a. split; [now left|]. intros y [<-|Hy]; [apply Qle_refl|].
      apply Qlt_le_weak. eapply Qlt_le_trans; [exact Hlt|]. now apply Hle.
    + exists x. split; [now right|]. intros y [<-|Hy]; [exact Hge|].
      now apply Hle.
Qed.

(** Among the values that are not zero one deviates from the median by at
    most the median deviation, which is not negative. *)
Lemma closest_value (rest : list Q) (med mad : Q) :
  rest <> [] ->
  median (map (fun v => Qabs (v - med)) rest) = Fin mad ->
  0 <= mad /\ exists v0, In v0 rest /\ Qabs (v0 - med) <= mad.
Proof.
  intros Hne Hm. split.
  - apply (median_lower_bound 0 mad _) in Hm; [exact Hm|].
    intros x Hx. apply in_map_iff in Hx as [v [<- _]]. apply Qabs_nonneg.
  - destruct (least_entry (fun v => Qabs (v - med)) rest Hne) as [v0 [Hin Hle]].
    exists v0. split; [exact Hin|].
    apply (median_lower_bound (Qabs (v0 - med)) mad _) in Hm; [exact Hm|].
    intros x Hx. apply in_map_iff in Hx as [v [<- Hv]]. now apply Hle.
Qed.

Lemma nonzero_kept (data : list Q) (v : Q) :
  In v (filter (fun v => negb (Qeq_bool v 0)) data) <-> In v data /\ ~ v == 0.
Proof.
  rewrite filter_In. split; intros [Hin Hz]; split; try exact Hin.
  - intros E. apply Qeq_bool_iff in E. rewrite E in Hz. discriminate.
  - destruct (Qeq_bool v 0) eqn:E; [|reflexivity].
    apply Qeq_bool_iff in E. contradiction.
Qed.

(** With [m] of at least one half, the value closest to the median is
    kept: the result is empty only if no entry is left after the zeros are
    dropped. *)
Lemma closest_value_kept (data : list Q) (m : Q) :
  1 # 2 <= m ->
  filter (fun v => negb (Qeq_bool v 0)) data <> [] ->
  reject_moutliers data m <> [].
Proof.
  intros Hm Hne. rewrite reject_moutliers_refines.
  unfold outlier_rejector.
  set (rest := filter (fun v => negb (Qeq_bool v 0)) data) in *.
  destruct (median_defined rest Hne) as [med Hmed]. rewrite Hmed.
  assert (Hne' : map (fun v => Qabs (v - med)) rest <> [])
    by (destruct rest; [congruence | discriminate]).
  destruct (median_defined _ Hne') as [mad Hmad]. rewrite Hmad.
  destruct (closest_value rest med mad Hne Hmad) as [H0 [v0 [Hv0 Hd]]].
  destruct (Qeq_bool (2 * mad) 0) eqn:Hz.
  - destruct rest; [congruence | discriminate].
  - assert (Hpos : 0 < 2 * mad).
    { destruct (Qlt_le_dec 0 (2 * mad)) as [?|Hle]; [assumption|].
      assert (E : 2 * mad == 0) by lra.
      apply Qeq_bool_iff in E. congruence. }
    intros E.
    assert (Hk : In v0 (filter
                 (fun v => Qle_bool (Qabs (v - med) / (2 * mad)) m) rest)).
    { apply filter_In. split; [exact Hv0|]. apply Qle_bool_iff.
      eapply Qle_trans; [|exact Hm].
      apply Qle_shift_div_r; [exact Hpos|]. lra. }
    rewrite E in Hk. destruct Hk.
Qed.

(** X16: with [m] of at least one half, as in the call of the script, the
    result is not empty as soon as one entry of the input is not zero. *)
Theorem reject_moutliers_keeps_one (data : list Q) (m : Q) :
  1 # 2 <= m ->
  (exists v, In v data /\ ~ v == 0) ->
  reject_moutliers data m <> [].
Proof.
  intros Hm [v [Hv Hnz]]. apply closest_value_kept; [exact Hm|].
  assert (Hin : In v (filter (fun v => negb (Qeq_bool v 0)) data))
    by (apply nonzero_kept; split; assumption).
  intros E. rewrite E in Hin. destruct Hin.
Qed.

Lemma reject_moutliers_keeps_one_witness :
  reject_moutliers [0; 3; 0] 1 <> [].
Proof.
  apply reject_moutliers_keeps_one.
  - discriminate.
  - exists 3. split; [right; now left | discriminate].
Defined.

End MagnitudeMore.

Section CombinedMagnitude.

Import Np Magnitude MagnitudeSpec.
Local Open Scope Q_scope.

Lemma all_zero_rejected (md : list Q) :
  (forall v, In v md -> v == 0) -> reject_moutliers md 1 = [].
Proof.
  intros Hz. rewrite reject_moutliers_refines. unfold outlier_rejector.
  assert (Hf : filter (fun v => negb (Qeq_bool v 0)) md = []).
  { induction md as [|a md IH]; [reflexivity|]. cbn [filter].
    assert (Ha : Qeq_bool a 0 = true)
      by (apply Qeq_bool_iff, Hz; now left).
    rewrite Ha. cbn [negb]. apply IH. intros v Hv. apply Hz. now right. }
  rewrite Hf. reflexivity.
Qed.

(** X18: the magnitude of a detection is NaN exactly when no channel gave
    an estimate, that is when every entry of [md] is zero. *)
Theorem combined_magnitude_nan (md : list Q) :
  combined_magnitude md = Nan <-> forall v, In v md -> v == 0.
Proof.
  unfold combined_magnitude. split.
  - intros Hn v Hv.
    destruct (Qeq_bool v 0) eqn:E; [now apply Qeq_bool_iff|].
    exfalso.
    assert (Hne : reject_moutliers md 1 <> []).
    { apply closest_value_kept; [discriminate|].
      assert (Hin : In v (filter (fun v => negb (Qeq_bool v 0)) md))
        by (apply filter_In; split; [exact Hv | now rewrite E]).
      intros Z. rewrite Z in Hin. destruct Hin. }
    destruct (reject_moutliers md 1) as [|a l]; [congruence|].
    discriminate.
  - intros Hz. now rewrite all_zero_rejected.
Qed.

Lemma combined_magnitude_nan_witness :
  combined_magnitude [0; 0] = Nan.
Proof.
  apply (proj2 (combined_magnitude_nan [0; 0])).
  intros v [<-|[<-|[]]]; reflexivity.
Defined.

End CombinedMagnitude.
